(** * ai-summarizer: the client-side flows of the frontend

    A shallow embedding of the stateful React pages of the repository:

    - [Dashboard]: [src/frontend/src/app/dashboard/page.tsx] (upload,
      validation, processing, retry of a partial result, result rendering);
    - [ResultDisplay]: [src/frontend/src/components/ResultDisplay.tsx];
    - [Admin]: [src/frontend/src/app/admin/page.tsx] (admin key handling);
    - [BuyCredits]: the purchase page with the proof-upload form.

    React state ([useState]) is a record; an event handler is a function on
    that record.  An [async] handler is cut at each [await] on something the
    browser answers later (a media element loading its metadata, a [fetch]):
    the part after the [await] is a continuation kept in the state together
    with the values its closure captured, and it runs when the matching
    event arrives.  Network calls and [alert]s are appended to logs. *)

From Stdlib Require Import List String Ascii Bool ZArith QArith Lia.
Import ListNotations.
Open Scope string_scope.
Open Scope Z_scope.

(** ** JavaScript values used by the pages *)

Module JS.

(** [s.split(sep)] for a one-character separator: never empty. *)
Fixpoint split (sep : ascii) (s : string) : list string :=
  match s with
  | EmptyString => [EmptyString]
  | String c r =>
      if Ascii.eqb c sep then EmptyString :: split sep r
      else match split sep r with
           | h :: t => String c h :: t
           | [] => [String c EmptyString]
           end
  end.

(** [a.pop()]: the last element, [undefined] on an empty array. *)
Fixpoint pop (a : list string) : option string :=
  match a with
  | [] => None
  | [x] => Some x
  | _ :: t => pop t
  end.

(** The lower case of an ASCII letter (other bytes are kept). *)
Definition lower_ascii (c : ascii) : ascii :=
  let n := nat_of_ascii c in
  if (Nat.leb 65 n && Nat.leb n 90)%bool then ascii_of_nat (n + 32) else c.

(** The three bytes of U+212A KELVIN SIGN in UTF-8. *)
Definition is_kelvin (a b c : ascii) : bool :=
  Ascii.eqb a "226"%char && Ascii.eqb b "132"%char && Ascii.eqb c "170"%char.

(** [s.toLowerCase()] on a UTF-8 text, for the characters whose lower
    case is an ASCII letter: the letters A-Z, and the Kelvin sign, which
    lower-cases to [k] (no other character of Unicode lower-cases to
    ASCII).  The other characters are kept as they are: their lower case
    is not ASCII either, so comparing the result with an ASCII string,
    as the pages do, gives what it gives in the browser. *)
Fixpoint toLowerCase (s : string) : string :=
  match s with
  | EmptyString => EmptyString
  | String c r =>
      match r with
      | String c1 (String c2 r') =>
          if is_kelvin c c1 c2 then String "k" (toLowerCase r')
          else String (lower_ascii c) (toLowerCase r)
      | _ => String (lower_ascii c) (toLowerCase r)
      end
  end.

(** [a.includes(x)] on an array of strings. *)
Definition includes (a : list string) (x : string) : bool :=
  existsb (String.eqb x) a.

(** [s.startsWith(p)]. *)
Definition startsWith (s p : string) : bool := String.prefix p s.

(** Truthiness of an optional string: [undefined] and [""] are falsy. *)
Definition truthy (v : option string) : bool :=
  match v with
  | Some s => negb (String.eqb s "")
  | None => false
  end.

(** [a || b] on optional strings. *)
Definition or (a b : option string) : option string :=
  if truthy a then a else b.

(** [new Error(v).message]: the empty string when [v] is [undefined]. *)
Definition Error_message (v : option string) : string :=
  match v with Some s => s | None => "" end.

(** What a [catch (err)] receives: an [Error] with its message, or
    any other thrown value. *)
Inductive Thrown :=
| Error (message : string)
| NotAnError.

(** [err instanceof Error ? err.message : fallback]. *)
Definition message_or (err : Thrown) (fallback : string) : string :=
  match err with
  | Error m => m
  | NotAnError => fallback
  end.

(** [response.ok]: the status is in the range 200-299. *)
Definition ok (status : Z) : bool := (200 <=? status) && (status <=? 299).

End JS.

(** The browser's [File]: the three properties the pages read. *)
Module File.
Record t := { name : string; size : Z; type : string }.
End File.

(** The authenticated user of [useAuth()]. *)
Module User.
Record t := { id : string; email : option string }.
End User.

(** The logs of the effects a page performs. *)
Inductive FormValue :=
| FormFile (f : File.t)
| FormText (s : string).

Inductive RequestBody :=
| NoBody
| JsonBody (fields : list (string * string))     (* JSON.stringify({...}) *)
| FormData (entries : list (string * FormValue)).

(** A call of [fetch].  [path] is the text of the URL after the base
    ([NEXT_PUBLIC_API_URL], or [http://localhost:8000]), exactly as the
    source writes it: where the source interpolates a value into the
    template string, the value is part of [path], unencoded.  [query]
    holds the parameters the source adds with [url.searchParams.set],
    which the [URL] object encodes. *)
Record Request := {
  method : string;
  path : string;
  query : list (string * string);
  body : RequestBody
}.

(** The text given to [alert]: a literal message of the source, or the
    template of the duration check with its two interpolated numbers. *)
Inductive AlertText :=
| Text (s : string)
| DurationText (durationMins : Q) (max : Z).

(** ** The JSON body of a backend response

    [data] is the parsed object; the fields are those of the interfaces
    [ProcessingResult] and [PartialResult] and the [error]/[detail] of a
    failure.  A field that is absent reads as [undefined] ([None]); a
    field that is present has the type its interface gives it, so
    [error], [detail] and the other texts are strings (a body that
    carries another JSON value there is not represented). *)
Module data.

Record Summary := {
  ringkasan_singkat : string;
  poin_penting : list string;
  action_items : list string
}.

Record t := {
  status : option string;
  stage : option string;
  original_filename : option string;
  duration_minutes : option Q;
  transcript : option string;
  summary : option Summary;
  cache_key : option string;
  error : option string;
  message : option string;
  detail : option string
}.

End data.

(** What [await fetch(...)] followed by [await response.json()] gives:
    a thrown value (network failure, invalid JSON) or the response status
    with its parsed body. *)
Inductive Fetched (A : Type) :=
| Threw (err : JS.Thrown)
| Response (status : Z) (d : A).
Arguments Threw {A} err.
Arguments Response {A} status d.

(** ** The dashboard page *)
Module Dashboard.

Inductive Status := processing | completed | error_.

Definition Status_eqb (a b : Status) : bool :=
  match a, b with
  | processing, processing | completed, completed | error_, error_ => true
  | _, _ => false
  end.

(** [interface FileItem]: the three optional payload fields are not
    constrained by the type. *)
Record FileItem := {
  id : string;
  name : string;
  status : Status;
  progress : option Z;
  result : option data.t;
  partialResult : option data.t;
  error : option string
}.

(** [Partial<FileItem>] as [updateFile] receives it: a key is absent
    ([None]) or present with its value, which for an optional field may
    itself be [undefined] ([Some None]). *)
Record Updates := {
  set_status : option Status;
  set_progress : option (option Z);
  set_result : option (option data.t);
  set_partialResult : option (option data.t);
  set_error : option (option string)
}.

Definition override {A} (old : A) (upd : option A) : A :=
  match upd with Some v => v | None => old end.

(** [{ ...f, ...updates }]. *)
Definition spread (f : FileItem) (u : Updates) : FileItem :=
  {| id := id f;
     name := name f;
     status := override (status f) (set_status u);
     progress := override (progress f) (set_progress u);
     result := override (result f) (set_result u);
     partialResult := override (partialResult f) (set_partialResult u);
     error := override (error f) (set_error u) |}.

Definition ALLOWED_EXTENSIONS : list string :=
  [".mp3"; ".wav"; ".m4a"; ".ogg"; ".mp4"; ".mov"; ".mkv"; ".avi"; ".webm"].

Definition MAX_FILE_SIZE : Z := 50 * 1024 * 1024.

(** [userCredits]; the credit columns are [INT] in the schema. *)
Record Credits := { total : Z; free : Z; paid : Z; maxDuration : Z }.

(** The body of [GET /api/credits/balance] as the backend's contract
    gives it, with its three numbers.  ([fetchUserCredits] does not test
    [res.ok]: an answer whose body lacks them would be stored as well,
    with [undefined] fields; such an answer is not represented.) *)
Record Balance := {
  total_credits : Z;
  free_credits : Z;
  paid_credits : Z;
  max_duration : option Z
}.

(** [n || 20] on an optional number: [undefined] and [0] are falsy. *)
Definition or20 (n : option Z) : Z :=
  match n with
  | Some v => if v =? 0 then 20 else v
  | None => 20
  end.

Inductive MediaKind := audio | video.

(** A handler suspended at [await validateDuration(file)]: the media
    element it created, and what the closures of that render captured. *)
Record Probe := {
  probe_file : File.t;
  probe_element : MediaKind;
  probe_max : Z;                      (* getMaxDuration() of that render *)
  probe_user : option User.t
}.

(** [processFile] suspended at [await fetch(.../api/process)]. *)
Record ProcessCall := {
  call_fileId : string;
  call_user : option User.t
}.

(** [handleRetrySummarization] suspended at its [await fetch]. *)
Record RetryCall := {
  retry_selectedFileId : option string;
  retry_user : option User.t
}.

Record State := {
  (* useAuth() *)
  user : option User.t;
  (* useState *)
  files : list FileItem;
  selectedFileId : option string;
  isDragging : bool;
  isRetrying : bool;
  userCredits : option Credits;
  (* suspended continuations *)
  probes : list Probe;
  process_calls : list ProcessCall;
  retry_calls : list RetryCall;
  balance_calls : nat;
  (* effect logs *)
  requests : list Request;
  alerts : list AlertText
}.

(** *** State setters *)

Definition setFiles (g : list FileItem -> list FileItem) (st : State) : State :=
  {| user := user st; files := g (files st);
     selectedFileId := selectedFileId st; isDragging := isDragging st;
     isRetrying := isRetrying st; userCredits := userCredits st;
     probes := probes st; process_calls := process_calls st;
     retry_calls := retry_calls st; balance_calls := balance_calls st;
     requests := requests st; alerts := alerts st |}.

Definition setSelectedFileId (v : option string) (st : State) : State :=
  {| user := user st; files := files st;
     selectedFileId := v; isDragging := isDragging st;
     isRetrying := isRetrying st; userCredits := userCredits st;
     probes := probes st; process_calls := process_calls st;
     retry_calls := retry_calls st; balance_calls := balance_calls st;
     requests := requests st; alerts := alerts st |}.

Definition setIsDragging (v : bool) (st : State) : State :=
  {| user := user st; files := files st;
     selectedFileId := selectedFileId st; isDragging := v;
     isRetrying := isRetrying st; userCredits := userCredits st;
     probes := probes st; process_calls := process_calls st;
     retry_calls := retry_calls st; balance_calls := balance_calls st;
     requests := requests st; alerts := alerts st |}.

Definition setIsRetrying (v : bool) (st : State) : State :=
  {| user := user st; files := files st;
     selectedFileId := selectedFileId st; isDragging := isDragging st;
     isRetrying := v; userCredits := userCredits st;
     probes := probes st; process_calls := process_calls st;
     retry_calls := retry_calls st; balance_calls := balance_calls st;
     requests := requests st; alerts := alerts st |}.

Definition setUserCredits (v : option Credits) (st : State) : State :=
  {| user := user st; files := files st;
     selectedFileId := selectedFileId st; isDragging := isDragging st;
     isRetrying := isRetrying st; userCredits := v;
     probes := probes st; process_calls := process_calls st;
     retry_calls := retry_calls st; balance_calls := balance_calls st;
     requests := requests st; alerts := alerts st |}.

Definition set_probes (v : list Probe) (st : State) : State :=
  {| user := user st; files := files st;
     selectedFileId := selectedFileId st; isDragging := isDragging st;
     isRetrying := isRetrying st; userCredits := userCredits st;
     probes := v; process_calls := process_calls st;
     retry_calls := retry_calls st; balance_calls := balance_calls st;
     requests := requests st; alerts := alerts st |}.

Definition set_process_calls (v : list ProcessCall) (st : State) : State :=
  {| user := user st; files := files st;
     selectedFileId := selectedFileId st; isDragging := isDragging st;
     isRetrying := isRetrying st; userCredits := userCredits st;
     probes := probes st; process_calls := v;
     retry_calls := retry_calls st; balance_calls := balance_calls st;
     requests := requests st; alerts := alerts st |}.

Definition set_retry_calls (v : list RetryCall) (st : State) : State :=
  {| user := user st; files := files st;
     selectedFileId := selectedFileId st; isDragging := isDragging st;
     isRetrying := isRetrying st; userCredits := userCredits st;
     probes := probes st; process_calls := process_calls st;
     retry_calls := v; balance_calls := balance_calls st;
     requests := requests st; alerts := alerts st |}.

Definition set_balance_calls (v : nat) (st : State) : State :=
  {| user := user st; files := files st;
     selectedFileId := selectedFileId st; isDragging := isDragging st;
     isRetrying := isRetrying st; userCredits := userCredits st;
     probes := probes st; process_calls := process_calls st;
     retry_calls := retry_calls st; balance_calls := v;
     requests := requests st; alerts := alerts st |}.

(** [fetch(...)]: the call is logged. *)
Definition fetch (r : Request) (st : State) : State :=
  {| user := user st; files := files st;
     selectedFileId := selectedFileId st; isDragging := isDragging st;
     isRetrying := isRetrying st; userCredits := userCredits st;
     probes := probes st; process_calls := process_calls st;
     retry_calls := retry_calls st; balance_calls := balance_calls st;
     requests := requests st ++ [r]; alerts := alerts st |}.

Definition alert (a : AlertText) (st : State) : State :=
  {| user := user st; files := files st;
     selectedFileId := selectedFileId st; isDragging := isDragging st;
     isRetrying := isRetrying st; userCredits := userCredits st;
     probes := probes st; process_calls := process_calls st;
     retry_calls := retry_calls st; balance_calls := balance_calls st;
     requests := requests st; alerts := alerts st ++ [a] |}.

(** [xs] without its [n]-th element (a continuation that has run). *)
Fixpoint remove_nth {A} (n : nat) (xs : list A) : list A :=
  match n, xs with
  | _, [] => []
  | O, _ :: t => t
  | S k, x :: t => x :: remove_nth k t
  end.

(** *** Derived state *)

(** [files.some(f => f.status === "processing")]. *)
Definition isProcessing (st : State) : bool :=
  existsb (fun f => Status_eqb (status f) processing) (files st).

(** [files.find(f => f.id === selectedFileId)]. *)
Definition selectedFile (st : State) : option FileItem :=
  match selectedFileId st with
  | Some sel => find (fun f => String.eqb (id f) sel) (files st)
  | None => None
  end.

(** *** Requests *)

(** [fetch(`${base}/api/credits/balance?user_id=${user.id}`)]. *)
Definition balance_request (u : User.t) : Request :=
  {| method := "GET"; path := "/api/credits/balance?user_id=" ++ User.id u;
     query := []; body := NoBody |}.

(** [url.searchParams.set("user_id", user.id)] only [if (user?.id)]. *)
Definition process_request (u : option User.t) (file : File.t) : Request :=
  {| method := "POST"; path := "/api/process";
     query := match u with
              | Some v => if JS.truthy (Some (User.id v))
                          then [("user_id", User.id v)] else []
              | None => []
              end;
     body := FormData [("file", FormFile file)] |}.

Definition retry_request (key : string) : Request :=
  {| method := "POST"; path := "/api/retry-summary"; query := [];
     body := JsonBody [("cache_key", key)] |}.

(** *** The functions of the page *)

Definition fetchUserCredits (u : option User.t) (st : State) : State :=
  match u with
  | Some v => set_balance_calls (S (balance_calls st)) (fetch (balance_request v) st)
  | None => st
  end.

(** The [.then(data => setUserCredits({...}))] of [fetchUserCredits]. *)
Definition balance_loaded (b : Balance) (st : State) : State :=
  setUserCredits
    (Some {| total := total_credits b; free := free_credits b;
             paid := paid_credits b; maxDuration := or20 (max_duration b) |})
    st.

(** ["." + file.name.split(".").pop()?.toLowerCase()]. *)
Definition ext_of (file : File.t) : string :=
  "." ++ match JS.pop (JS.split "." (File.name file)) with
         | Some last => JS.toLowerCase last
         | None => "undefined"
         end.

Definition validateFile (file : File.t) : option string :=
  let ext := ext_of file in
  if negb (JS.includes ALLOWED_EXTENSIONS ext) then
    Some "Format file tidak didukung"
  else if File.size file >? MAX_FILE_SIZE then
    Some "File terlalu besar (max 50MB)"
  else None.

(** [userCredits?.maxDuration || 20]. *)
Definition getMaxDuration (st : State) : Z :=
  or20 (option_map maxDuration (userCredits st)).

Definition checkCredits (st : State) : bool :=
  match userCredits st with
  | None => false
  | Some c => free c + paid c >=? 1
  end.

(** [updateFile] inside [processFile], for the [fileId] of that call. *)
Definition updateFile (fileId : string) (updates : Updates) (st : State) : State :=
  setFiles (map (fun f => if String.eqb (id f) fileId then spread f updates else f)) st.

(** [processFile] up to its [await fetch]; [fileId] is the value
    [crypto.randomUUID()] returned. *)
Definition processFile (u : option User.t) (fileId : string) (file : File.t)
    (st : State) : State :=
  let fileItem :=
    {| id := fileId; name := File.name file; status := processing;
       progress := Some 0; result := None; partialResult := None;
       error := None |} in
  let st := setFiles (fun prev => fileItem :: prev) st in
  let st := setSelectedFileId (Some fileId) st in
  let st := updateFile fileId
              {| set_status := None; set_progress := Some (Some 10);
                 set_result := None; set_partialResult := None;
                 set_error := None |} st in
  let st := fetch (process_request u file) st in
  set_process_calls
    (process_calls st ++ [{| call_fileId := fileId; call_user := u |}]) st.

(** [processFile] from the answer of its [fetch] on. *)
Definition processFile_settled (c : ProcessCall) (r : Fetched data.t)
    (st : State) : State :=
  let fileId := call_fileId c in
  match r with
  | Response status d =>
      if negb (JS.ok status) then
        if match data.status d with
           | Some s => String.eqb s "partial"
           | None => false
           end
        then
          updateFile fileId
            {| set_status := Some error_; set_progress := Some (Some 100);
               set_result := None; set_partialResult := Some (Some d);
               set_error := None |} st
        else
          updateFile fileId
            {| set_status := Some error_; set_progress := Some (Some 100);
               set_result := None; set_partialResult := None;
               set_error :=
                 Some (JS.or (JS.or (data.error d) (data.detail d))
                             (Some "Terjadi kesalahan")) |} st
      else
        fetchUserCredits (call_user c)
          (updateFile fileId
             {| set_status := Some completed; set_progress := Some (Some 100);
                set_result := Some (Some d); set_partialResult := None;
                set_error := None |} st)
  | Threw err =>
      updateFile fileId
        {| set_status := Some error_; set_progress := Some (Some 100);
           set_result := None; set_partialResult := None;
           set_error := Some (Some (JS.message_or err "Terjadi kesalahan")) |} st
  end.


(** [validateDuration] up to the promise it returns: [None] when it
    resolves [null] at once (the file is neither audio nor video by its
    MIME type), otherwise the media element it creates and waits on. *)
Definition validateDuration (file : File.t) : option MediaKind :=
  let isAudio := JS.startsWith (File.type file) "audio/" in
  let isVideo := JS.startsWith (File.type file) "video/" in
  if negb isAudio && negb isVideo then None
  else Some (if isAudio then audio else video).

(** [element.onloadedmetadata]: what the promise resolves to.  The
    duration in seconds is a rational number (the [NaN] and [Infinity] a
    media element can report are not represented). *)
Definition onloadedmetadata_resolve (p : Probe) (duration : Q) : option AlertText :=
  let durationMins := (duration / inject_Z 60)%Q in
  let max := probe_max p in
  if negb (Qle_bool durationMins (inject_Z max))
  then Some (DurationText durationMins max)
  else None.

(** The handlers after [await validateDuration(file)]. *)
Definition after_validateDuration (durationError : option AlertText)
    (u : option User.t) (fileId : string) (file : File.t) (st : State) : State :=
  match durationError with
  | Some e => alert e st
  | None => processFile u fileId file st
  end.

(** The part [handleFileInput] and [handleDrop] share, from the credit
    check on. *)
Definition check_and_process (file : option File.t) (fileId : string)
    (st : State) : State :=
  if negb (checkCredits st) then
    alert (Text "Credit tidak cukup. Silakan top up credit Anda.") st
  else
    match file with
    | None => st
    | Some file =>
        match validateFile file with
        | Some error => alert (Text error) st
        | None =>
            match validateDuration file with
            | None => after_validateDuration None (user st) fileId file st
            | Some kind =>
                set_probes
                  (probes st ++
                     [{| probe_file := file; probe_element := kind;
                         probe_max := getMaxDuration st;
                         probe_user := user st |}]) st
            end
        end
    end.

(** [handleFileInput]; [file] is [e.target.files?.[0]] (the reset of the
    input's value has no effect on the state). *)
Definition handleFileInput (file : option File.t) (fileId : string)
    (st : State) : State :=
  if isProcessing st then st
  else check_and_process file fileId st.

(** [handleDrop]; [file] is [e.dataTransfer.files[0]]. *)
Definition handleDrop (file : option File.t) (fileId : string)
    (st : State) : State :=
  let st := setIsDragging false st in
  if isProcessing st then st
  else check_and_process file fileId st.

Definition handleDragOver (st : State) : State :=
  if negb (isProcessing st) then setIsDragging true st else st.

(** [handleRetrySummarization] up to its [await fetch]. *)
Definition handleRetrySummarization (st : State) : State :=
  match selectedFile st with
  | Some f =>
      match partialResult f with
      | Some d =>
          match data.cache_key d with
          | Some key =>
              if JS.truthy (Some key) then
                let st1 := fetch (retry_request key) (setIsRetrying true st) in
                set_retry_calls
                  (retry_calls st1 ++
                     [{| retry_selectedFileId := selectedFileId st;
                         retry_user := user st |}]) st1
              else st
          | None => st
          end
      | None => st
      end
  | None => st
  end.

(** [handleRetrySummarization] from the answer of its [fetch] on. *)
Definition handleRetrySummarization_settled (c : RetryCall) (r : Fetched data.t)
    (st : State) : State :=
  match r with
  | Response status d =>
      if negb (JS.ok status) then
        (* throw new Error(data.error || data.detail), caught below *)
        setIsRetrying false
          (alert (Text (JS.Error_message (JS.or (data.error d) (data.detail d)))) st)
      else
        setIsRetrying false
          (fetchUserCredits (retry_user c)
             (setFiles
                (map (fun f =>
                        if match retry_selectedFileId c with
                           | Some sel => String.eqb (id f) sel
                           | None => false
                           end
                        then spread f
                               {| set_status := Some completed;
                                  set_progress := None;
                                  set_result := Some (Some d);
                                  set_partialResult := Some None;
                                  set_error := Some None |}
                        else f)) st))
  | Threw err =>
      setIsRetrying false (alert (Text (JS.message_or err "Gagal retry")) st)
  end.

(** *** The page as a transition system *)

Inductive Event :=
| onChange (file : option File.t) (uuid : string)
| onDrop (file : option File.t) (uuid : string)
| onDragOver
| onDragLeave
| onloadedmetadata (n : nat) (duration : Q) (uuid : string)
| onerror (n : nat) (uuid : string)
| process_settled (n : nat) (r : Fetched data.t)
| onClick_file (n : nat)
| onClick_retry
| retry_settled (n : nat) (r : Fetched data.t)
| balance_settled (b : option Balance).

(** The page renders its handlers only for a signed-in user
    ([if (loading || !user) return <loader/>]); the retry button is
    [disabled={isRetrying}]. *)
Definition handle (e : Event) (st : State) : State :=
  match e with
  | onChange file uuid =>
      match user st with
      | Some _ => handleFileInput file uuid st
      | None => st
      end
  | onDrop file uuid =>
      match user st with
      | Some _ => handleDrop file uuid st
      | None => st
      end
  | onDragOver =>
      match user st with
      | Some _ => handleDragOver st
      | None => st
      end
  | onDragLeave =>
      match user st with
      | Some _ => setIsDragging false st
      | None => st
      end
  | onloadedmetadata n duration uuid =>
      match nth_error (probes st) n with
      | Some p =>
          after_validateDuration (onloadedmetadata_resolve p duration)
            (probe_user p) uuid (probe_file p)
            (set_probes (remove_nth n (probes st)) st)
      | None => st
      end
  | onerror n uuid =>
      match nth_error (probes st) n with
      | Some p =>
          after_validateDuration None (probe_user p) uuid (probe_file p)
            (set_probes (remove_nth n (probes st)) st)
      | None => st
      end
  | process_settled n r =>
      match nth_error (process_calls st) n with
      | Some c =>
          processFile_settled c r
            (set_process_calls (remove_nth n (process_calls st)) st)
      | None => st
      end
  | onClick_file n =>
      match user st, nth_error (files st) n with
      | Some _, Some file => setSelectedFileId (Some (id file)) st
      | _, _ => st
      end
  | onClick_retry =>
      match user st with
      | Some _ => if isRetrying st then st else handleRetrySummarization st
      | None => st
      end
  | retry_settled n r =>
      match nth_error (retry_calls st) n with
      | Some c =>
          handleRetrySummarization_settled c r
            (set_retry_calls (remove_nth n (retry_calls st)) st)
      | None => st
      end
  | balance_settled b =>
      match balance_calls st with
      | O => st
      | S k =>
          let st := set_balance_calls k st in
          match b with
          | Some v => balance_loaded v st
          | None => st                      (* .catch(console.error) *)
          end
      end
  end.

(** [crypto.randomUUID()] never returns the id of an existing item. *)
Definition enabled (e : Event) (st : State) : bool :=
  match e with
  | onChange _ uuid | onDrop _ uuid | onloadedmetadata _ _ uuid | onerror _ uuid =>
      negb (existsb (String.eqb uuid) (map id (files st)))
  | _ => true
  end.

Fixpoint run (events : list Event) (st : State) : option State :=
  match events with
  | [] => Some st
  | e :: rest => if enabled e st then run rest (handle e st) else None
  end.

(** The page after its first render: the mount effect has called
    [fetchUserCredits]. *)
Definition init (u : option User.t) : State :=
  fetchUserCredits u
    {| user := u; files := []; selectedFileId := None; isDragging := false;
       isRetrying := false; userCredits := None; probes := [];
       process_calls := []; retry_calls := []; balance_calls := O;
       requests := []; alerts := [] |}.

Definition reachable (st : State) : Prop :=
  exists u events, run events (init u) = Some st.

(** Number of items of the list that are in status [processing]. *)
Definition processing_count (st : State) : nat :=
  List.length (filter (fun f => Status_eqb (status f) processing) (files st)).

Definition defined {A} (v : option A) : nat :=
  match v with Some _ => 1%nat | None => 0%nat end.

(** How many of [result], [partialResult] and [error] an item has. *)
Definition payload_count (f : FileItem) : nat :=
  (defined (result f) + defined (partialResult f) + defined (error f))%nat.


End Dashboard.

(** ** Rendered output

    The part of the JSX tree the result views produce: text, an
    interpolated number, or an element with its tag, class and children.
    [cond && <x/>] with a false [cond] contributes no child. *)
Module JSX.

#[warnings="-register-all"]
Inductive Node :=
| text (s : string)
| number (n : Z)
| element (tag className : string) (children : list Node).

(** The literal texts below a node, in document order. *)
Fixpoint texts (n : Node) : list string :=
  match n with
  | text s => [s]
  | number _ => []
  | element _ _ children => flat_map texts children
  end.

Definition when (cond : bool) (n : Node) : list Node :=
  if cond then [n] else [].

Definition svg (className : string) : Node :=
  element "svg" className [element "path" "" []].

End JSX.

(** The result sections of the dashboard's right panel. *)
Module DashboardView.
Import JSX.

Record OpenSections := {
  summary : bool;
  keyPoints : bool;
  actionItems : bool;
  transcript : bool
}.

Definition section (title : string) (open : bool) (content : Node) : Node :=
  element "div" "result-section"
    (element "div" "result-section-header"
       [element "span" "result-section-title" [text title];
        svg (if open then "result-section-toggle open" else "result-section-toggle ")]
     :: when open content).

Definition Summary_content (s : data.Summary) : Node :=
  element "div" "result-section-content" [text (data.ringkasan_singkat s)].

Definition KeyPoints_content (s : data.Summary) : Node :=
  element "div" "result-section-content"
    (map (fun point =>
            element "div" "key-point"
              [element "div" "key-point-bullet" []; element "span" "" [text point]])
         (data.poin_penting s)).

Definition ActionItems_content (s : data.Summary) : Node :=
  element "div" "result-section-content"
    (if (Z.of_nat (List.length (data.action_items s)) >? 0)
     then map (fun item =>
                 element "div" "action-item"
                   [element "div" "action-item-checkbox" [];
                    element "span" "action-item-text" [text item]])
              (data.action_items s)
     else [element "p" "" [text "Tidak ada action items terdeteksi."]]).

(** The fragment under [selectedFile.result && (...)], apart from the
    transcript section. *)
Definition result_sections (open : OpenSections) (s : data.Summary) : list Node :=
  [section "Executive Summary" (summary open) (Summary_content s);
   section "Key Points" (keyPoints open) (KeyPoints_content s);
   section "Action Items" (actionItems open) (ActionItems_content s)].

End DashboardView.

(** The component [ResultDisplay]: its two list sections.  Of a section
    header only the title and the count badge are kept (the icon, the copy
    button and the chevron carry no text). *)
Module ResultDisplay.
Import JSX.

Inductive SectionKey := summary | transcript | points | actions.

Definition SectionKey_eqb (a b : SectionKey) : bool :=
  match a, b with
  | summary, summary | transcript, transcript
  | points, points | actions, actions => true
  | _, _ => false
  end.

(** [expandedSections.has(key)] on the [Set<SectionKey>]. *)
Definition has (expandedSections : list SectionKey) (key : SectionKey) : bool :=
  existsb (SectionKey_eqb key) expandedSections.

(** [useState(new Set(["summary", "points", "actions"]))]. *)
Definition initial_expandedSections : list SectionKey := [summary; points; actions].

Definition header (title : string) (badge : list Node) : Node :=
  element "div" "result-header"
    [element "div" "flex items-center gap-3"
       (element "span" "font-semibold" [text title] :: badge)].

Definition Points_content (s : data.Summary) : Node :=
  element "div" "result-content"
    [element "ul" "space-y-3"
       (map (fun '(index, point) =>
               element "li" "flex items-start gap-3"
                 [element "span"
                   "flex-shrink-0 w-6 h-6 rounded-full bg-[var(--bg-tertiary)] flex items-center justify-center text-xs font-medium text-[var(--accent-secondary)]"
                   [number (Z.of_nat index + 1)];
                  element "span" "text-[var(--text-secondary)]" [text point]])
            (combine (seq 0 (List.length (data.poin_penting s)))
                     (data.poin_penting s)))].

Definition Actions_content (s : data.Summary) : Node :=
  element "div" "result-content"
    [if (Z.of_nat (List.length (data.action_items s)) >? 0)
     then element "div" "space-y-2"
            (map (fun item =>
                    element "div" "action-item"
                      [element "div" "action-item-icon" [svg "w-3 h-3"];
                       element "span" "text-[var(--text-secondary)]" [text item]])
                 (data.action_items s))
     else element "p" "text-[var(--text-muted)] text-center py-4"
            [text "Tidak ada action items yang terdeteksi"]].

Definition Points_section (expandedSections : list SectionKey)
    (s : data.Summary) : Node :=
  element "div" "result-section"
    (header "Poin Penting"
       [element "span" "badge badge-info"
          [number (Z.of_nat (List.length (data.poin_penting s)))]]
     :: when (has expandedSections points) (Points_content s)).

Definition Actions_section (expandedSections : list SectionKey)
    (s : data.Summary) : Node :=
  element "div" "result-section"
    (header "Action Items"
       [element "span" "badge badge-success"
          [number (Z.of_nat (List.length (data.action_items s)))]]
     :: when (has expandedSections actions) (Actions_content s)).

End ResultDisplay.

(** ** The admin console *)
Module Admin.

Record Purchase := {
  id : string;
  user_id : string;
  package_id : string;
  credits : Z;
  amount : Z;
  status : string;
  proof_url : string;
  proof_filename : string;
  admin_notes : option string;
  created_at : string;
  verified_at : option string;
  user_email : option string;
  user_name : option string
}.

Inductive TabType := pending | history_tab.

Inductive Action := approve | reject.

(** [useState] of the page, and the [admin_key] item of [localStorage]. *)
Record State := {
  activeTab : TabType;
  purchases : list Purchase;
  history : list Purchase;
  loading : bool;
  adminKey : string;
  authenticated : bool;
  selectedPurchase : option Purchase;
  actionLoading : option string;
  error : option string;
  localStorage_admin_key : option string;
  requests : list Request
}.

(** [await res.json()]: it throws on an invalid body; [purchases] is the
    field of that name in the parsed object. *)
Inductive Json :=
| invalid
| parsed (purchases : option (list Purchase)).

(** What [await Promise.all([fetch(pending), fetch(history)])] gives. *)
Inductive Lists :=
| lists_threw
| lists_responses (pendingStatus : Z) (pendingBody : Json)
                  (historyStatus : Z) (historyBody : Json).

(** [x.purchases || []]. *)
Definition or_empty (v : option (list Purchase)) : list Purchase :=
  match v with Some l => l | None => [] end.

(** [fetch(`${base}/api/credits/admin/${endpoint}?admin_key=${adminKey}`)]. *)
Definition admin_request (m endpoint key : string) : Request :=
  {| method := m;
     path := "/api/credits/admin/" ++ endpoint ++ "?admin_key=" ++ key;
     query := []; body := NoBody |}.

(** [fetchData] up to its [await Promise.all]: the two calls carry the
    key. *)
Definition fetchData (st : State) : State :=
  {| activeTab := activeTab st; purchases := purchases st;
     history := history st; loading := loading st;
     adminKey := adminKey st; authenticated := authenticated st;
     selectedPurchase := selectedPurchase st;
     actionLoading := actionLoading st; error := error st;
     localStorage_admin_key := localStorage_admin_key st;
     requests := requests st ++ [admin_request "GET" "pending" (adminKey st);
                                 admin_request "GET" "history" (adminKey st)] |}.

(** [fetchData] from the two answers on ([finally] included). *)
Definition fetchData_settled (r : Lists) (st : State) : State :=
  let failed :=
    {| activeTab := activeTab st; purchases := purchases st;
       history := history st; loading := false;
       adminKey := adminKey st; authenticated := authenticated st;
       selectedPurchase := selectedPurchase st;
       actionLoading := actionLoading st;
       error := Some "Gagal memuat data";
       localStorage_admin_key := localStorage_admin_key st;
       requests := requests st |} in
  match r with
  | lists_threw => failed
  | lists_responses pendingStatus pendingBody historyStatus historyBody =>
      if pendingStatus =? 401 then
        {| activeTab := activeTab st; purchases := purchases st;
           history := history st; loading := false;
           adminKey := adminKey st; authenticated := false;
           selectedPurchase := selectedPurchase st;
           actionLoading := actionLoading st;
           error := Some "Admin key tidak valid";
           localStorage_admin_key := None;
           requests := requests st |}
      else
        match pendingBody, historyBody with
        | parsed pendingData, parsed historyData =>
            {| activeTab := activeTab st;
               purchases := or_empty pendingData;
               history := or_empty historyData; loading := false;
               adminKey := adminKey st; authenticated := authenticated st;
               selectedPurchase := selectedPurchase st;
               actionLoading := actionLoading st; error := error st;
               localStorage_admin_key := localStorage_admin_key st;
               requests := requests st |}
        | _, _ => failed
        end
  end.

Definition action_name (a : Action) : string :=
  match a with approve => "approve" | reject => "reject" end.

(** [handleAction] up to its [await fetch]. *)
Definition handleAction (purchaseId : string) (action : Action) (st : State) : State :=
  {| activeTab := activeTab st; purchases := purchases st;
     history := history st; loading := loading st;
     adminKey := adminKey st; authenticated := authenticated st;
     selectedPurchase := selectedPurchase st;
     actionLoading := Some purchaseId; error := error st;
     localStorage_admin_key := localStorage_admin_key st;
     requests := requests st ++
       [admin_request "POST" (action_name action ++ "/" ++ purchaseId) (adminKey st)] |}.

(** [handleAction] from the answer on; [shown] is the [purchases] of the
    render whose button was clicked, [now] is [new Date().toISOString()],
    and the answer is the status of the response or [None] when [fetch]
    threw. *)
Definition handleAction_settled (purchaseId : string) (action : Action)
    (shown : list Purchase) (now : string) (res : option Z) (st : State) : State :=
  let failed :=
    {| activeTab := activeTab st; purchases := purchases st;
       history := history st; loading := loading st;
       adminKey := adminKey st; authenticated := authenticated st;
       selectedPurchase := selectedPurchase st;
       actionLoading := None; error := Some "Aksi gagal";
       localStorage_admin_key := localStorage_admin_key st;
       requests := requests st |} in
  match res with
  | None => failed
  | Some status =>
      if negb (JS.ok status) then failed      (* throw new Error("Action failed") *)
      else
        let processed := find (fun p => String.eqb (id p) purchaseId) shown in
        {| activeTab := activeTab st;
           purchases :=
             filter (fun p => negb (String.eqb (id p) purchaseId)) (purchases st);
           history :=
             match processed with
             | Some p =>
                 {| id := id p; user_id := user_id p; package_id := package_id p;
                    credits := credits p; amount := amount p;
                    status := match action with
                              | approve => "approved"
                              | reject => "rejected"
                              end;
                    proof_url := proof_url p; proof_filename := proof_filename p;
                    admin_notes := admin_notes p; created_at := created_at p;
                    verified_at := Some now;
                    user_email := user_email p; user_name := user_name p |}
                 :: history st
             | None => history st
             end;
           loading := loading st;
           adminKey := adminKey st; authenticated := authenticated st;
           selectedPurchase := None;
           actionLoading := None; error := error st;
           localStorage_admin_key := localStorage_admin_key st;
           requests := requests st |}
  end.

End Admin.

(** ** The purchase page with the proof-upload form *)
Module BuyCredits.

Record PackageData := {
  id : string;
  name : string;
  credits : Z;
  price : Z;
  price_formatted : string
}.

Record State := {
  user : option User.t;
  selectedPackage : option PackageData;
  proofFile : option File.t;
  submitting : bool;
  success : bool;
  error : option string;
  requests : list Request
}.

Definition setError (v : option string) (st : State) : State :=
  {| user := user st; selectedPackage := selectedPackage st;
     proofFile := proofFile st; submitting := submitting st;
     success := success st; error := v; requests := requests st |}.

Definition setProofFile (v : option File.t) (st : State) : State :=
  {| user := user st; selectedPackage := selectedPackage st;
     proofFile := v; submitting := submitting st;
     success := success st; error := error st; requests := requests st |}.

Definition allowedTypes : list string := ["image/jpeg"; "image/png"; "image/webp"].

(** [file] is [e.target.files?.[0]]. *)
Definition handleFileChange (file : option File.t) (st : State) : State :=
  match file with
  | Some file =>
      if negb (JS.includes allowedTypes (File.type file)) then
        setError (Some "Hanya file gambar (JPEG, PNG, WebP) yang diizinkan") st
      else if File.size file >? 5 * 1024 * 1024 then
        setError (Some "Ukuran file maksimal 5MB") st
      else setError None (setProofFile (Some file) st)
  | None => st
  end.

Definition purchase_request (u : User.t) (pkg : PackageData) (proof : File.t) : Request :=
  {| method := "POST"; path := "/api/credits/purchase"; query := [];
     body := FormData [("user_id", FormText (User.id u));
                       ("package_id", FormText (id pkg));
                       ("proof", FormFile proof)] |}.

(** [handleSubmit] up to its [await fetch]. *)
Definition handleSubmit (st : State) : State :=
  match selectedPackage st, proofFile st, user st with
  | Some pkg, Some proof, Some u =>
      {| user := user st; selectedPackage := selectedPackage st;
         proofFile := proofFile st; submitting := true;
         success := success st; error := None;
         requests := requests st ++ [purchase_request u pkg proof] |}
  | _, _, _ => setError (Some "Pilih paket dan upload bukti transfer") st
  end.

(** The submit button's [disabled={!proofFile || submitting}]. *)
Definition submit_disabled (st : State) : bool :=
  match proofFile st with
  | Some _ => submitting st
  | None => true
  end.

End BuyCredits.

(** ** Runs of the dashboard used below *)
Module Scenario.
Import Dashboard.

(** A retry that does not succeed: [fetch] or [json()] threw, or the
    response is not ok. *)
Definition is_failure (r : Fetched data.t) : bool :=
  match r with
  | Threw _ => true
  | Response status _ => negb (JS.ok status)
  end.

(** The message a failed retry passes to [alert]. *)
Definition failure_text (r : Fetched data.t) : AlertText :=
  match r with
  | Threw err => Text (JS.message_or err "Gagal retry")
  | Response _ d => Text (JS.Error_message (JS.or (data.error d) (data.detail d)))
  end.

(** One click on the retry button followed by the answer [r] to the
    request that click started (the last of the pending ones). *)
Definition retry_round (r : Fetched data.t) (st : State) : State :=
  handle (retry_settled (List.length (retry_calls st)) r) (handle onClick_retry st).

Fixpoint retry_rounds (rs : list (Fetched data.t)) (st : State) : State :=
  match rs with
  | [] => st
  | r :: rest => retry_rounds rest (retry_round r st)
  end.

Definition user1 : User.t := {| User.id := "user-1"; User.email := None |}.

Definition two_free_credits : Balance :=
  {| total_credits := 2; free_credits := 2; paid_credits := 0;
     max_duration := Some 20 |}.

Definition no_credits : Balance :=
  {| total_credits := 0; free_credits := 0; paid_credits := 0;
     max_duration := Some 20 |}.

Definition a_mp3 : File.t :=
  {| File.name := "a.mp3"; File.size := 4000000; File.type := "audio/mpeg" |}.

Definition b_mp4 : File.t :=
  {| File.name := "b.mp4"; File.size := 9000000; File.type := "video/mp4" |}.

Definition notes_txt : File.t :=
  {| File.name := "notes.txt"; File.size := 1200; File.type := "text/plain" |}.

Definition rapat : data.Summary :=
  {| data.ringkasan_singkat := "Rapat mingguan tim.";
     data.poin_penting := ["Rilis ditunda"];
     data.action_items := [] |}.

Definition success_body : data.t :=
  {| data.status := Some "success"; data.stage := None;
     data.original_filename := Some "a.mp3";
     data.duration_minutes := Some (12 # 1)%Q;
     data.transcript := Some "Selamat pagi semuanya.";
     data.summary := Some rapat; data.cache_key := None;
     data.error := None; data.message := None; data.detail := None |}.

Definition partial_body : data.t :=
  {| data.status := Some "partial"; data.stage := Some "summarization";
     data.original_filename := Some "a.mp3";
     data.duration_minutes := Some (12 # 1)%Q;
     data.transcript := Some "Selamat pagi semuanya.";
     data.summary := None; data.cache_key := Some "abc123";
     data.error := Some "LLM timeout"; data.message := None;
     data.detail := None |}.

Definition quota_body : data.t :=
  {| data.status := None; data.stage := None; data.original_filename := None;
     data.duration_minutes := None; data.transcript := None;
     data.summary := None; data.cache_key := None;
     data.error := Some "quota exceeded"; data.message := None;
     data.detail := None |}.

(** The balance has arrived and [a.mp3] was dropped and probed. *)
Definition upload_a : list Event :=
  [balance_settled (Some two_free_credits);
   onDrop (Some a_mp3) "unused";
   onloadedmetadata 0 (720 # 1)%Q "id-a"].

(** ... and the backend answered with the full result. *)
Definition upload_a_ok : list Event :=
  upload_a ++ [process_settled 0 (Response 200 success_body)].

(** ... or with a partial result. *)
Definition upload_a_partial : list Event :=
  upload_a ++ [process_settled 0 (Response 500 partial_body)].

(** ... which was then retried. *)
Definition upload_a_retrying : list Event :=
  upload_a_partial ++ [onClick_retry].

(** Two files are chosen one after the other while the first is still
    loading its metadata. *)
Definition two_quick_uploads : list Event :=
  [balance_settled (Some two_free_credits);
   onDrop (Some a_mp3) "unused";
   onChange (Some b_mp4) "unused";
   onloadedmetadata 0 (720 # 1)%Q "id-a";
   onloadedmetadata 0 (300 # 1)%Q "id-b"].

Definition state_after (events : list Event) : State :=
  match run events (init (Some user1)) with
  | Some st => st
  | None => init (Some user1)
  end.

Definition no_credit_state : State :=
  state_after [balance_settled (Some no_credits)].

End Scenario.


(** ** States of the other pages used below *)
Module Examples.

(** The admin console after a login with the key [s3cret]. *)
Definition signed_in : Admin.State :=
  {| Admin.activeTab := Admin.pending; Admin.purchases := [];
     Admin.history := []; Admin.loading := false;
     Admin.adminKey := "s3cret"; Admin.authenticated := true;
     Admin.selectedPurchase := None; Admin.actionLoading := None;
     Admin.error := None; Admin.localStorage_admin_key := Some "s3cret";
     Admin.requests := [] |}.

Definition bukti_png : File.t :=
  {| File.name := "bukti.png"; File.size := 300000; File.type := "image/png" |}.

Definition invoice_pdf : File.t :=
  {| File.name := "invoice.pdf"; File.size := 90000;
     File.type := "application/pdf" |}.

Definition starter : BuyCredits.PackageData :=
  {| BuyCredits.id := "starter"; BuyCredits.name := "Starter";
     BuyCredits.credits := 5; BuyCredits.price := 25000;
     BuyCredits.price_formatted := "Rp 25.000" |}.

(** The purchase form with a package chosen and a proof selected. *)
Definition proof_selected : BuyCredits.State :=
  {| BuyCredits.user := Some Scenario.user1;
     BuyCredits.selectedPackage := Some starter;
     BuyCredits.proofFile := Some bukti_png;
     BuyCredits.submitting := false; BuyCredits.success := false;
     BuyCredits.error := None; BuyCredits.requests := [] |}.

End Examples.

(** ** What the invariants of the dashboard speak about *)
Module Invariant.
Import Dashboard.

(** The new item [processFile] puts in front of the list. *)
Definition new_item (fileId : string) (file : File.t) : FileItem :=
  {| id := fileId; name := File.name file; status := processing;
     progress := Some 0; result := None; partialResult := None;
     error := None |}.

Definition no_payload (f : FileItem) : Prop :=
  result f = None /\ partialResult f = None /\ error f = None.

(** The facts that hold together in every reachable state: over the
    items, the pending media elements, the pending [/api/process] calls
    and the pending retries. *)
Record inv (fs : list FileItem) (ps : list Probe) (cs : list ProcessCall)
    (rs : list RetryCall) : Prop := {
  probe_signed_in : forall p, In p ps -> probe_user p <> None;
  call_signed_in : forall c, In c cs -> call_user c <> None;
  call_listed : forall c, In c cs -> In (call_fileId c) (map id fs);
  call_once : NoDup (map call_fileId cs);
  call_fresh : forall c f, In c cs -> In f fs -> id f = call_fileId c -> no_payload f;
  retry_done : forall r sel, In r rs -> retry_selectedFileId r = Some sel ->
                 ~ In sel (map call_fileId cs);
  retry_listed : forall r sel, In r rs -> retry_selectedFileId r = Some sel ->
                 In sel (map id fs);
  one_payload : forall f, In f fs -> (payload_count f <= 1)%nat
}.

Definition Inv (st : State) : Prop :=
  inv (files st) (probes st) (process_calls st) (retry_calls st).

(** [uuid] is not the id of an item of the list. *)
Definition fresh (uuid : string) (st : State) : Prop :=
  ~ In uuid (map id (files st)).

(** A function [map]ped over the items by [setFiles]: it keeps ids, and
    leaves alone the items that do not have the id [target]. *)
Definition touches_only (target : string) (g : FileItem -> FileItem) : Prop :=
  (forall f, id (g f) = id f) /\ (forall f, id f <> target -> g f = f).

End Invariant.

(** ** Further functions of the pages *)

(** The extension of a file name in the words of the specification:
    the part of the name from its last dot on, for a name that has a
    dot; a name without a dot has no extension. *)
Module FileName.

Fixpoint extension (name : string) : option string :=
  match name with
  | EmptyString => None
  | String c r =>
      match extension r with
      | Some e => Some e
      | None => if Ascii.eqb c "." then Some (String c r) else None
      end
  end.

End FileName.

(** More of the [String] methods the pages call. *)
Module JSString.

(** [s.includes(".")] for a one-character needle. *)
Fixpoint has_char (c : ascii) (s : string) : bool :=
  match s with
  | EmptyString => false
  | String a r => Ascii.eqb a c || has_char c r
  end.

(** [s.replace(/\.[^.]+$/, "")]: the leftmost position where the
    pattern matches is a dot followed, up to the end of the string, by at
    least one character and by no other dot; the match is the rest of the
    string, and it is removed. *)
Fixpoint remove_last_extension (s : string) : string :=
  match s with
  | EmptyString => EmptyString
  | String c r =>
      if Ascii.eqb c "." && negb (String.eqb r "") && negb (has_char "." r)
      then EmptyString
      else String c (remove_last_extension r)
  end.

(** [s.split(".")[0]]. *)
Definition first_segment (s : string) : option string :=
  nth_error (JS.split "." s) 0.

(** Number of bytes of the white-space or line-terminator character
    (as [trim] understands them) that starts the UTF-8 text [s]; [0] when
    it starts with another character. *)
Definition white_space_bytes (s : string) : nat :=
  match s with
  | String a r =>
      let x := nat_of_ascii a in
      if (Nat.leb 9 x && Nat.leb x 13) || Nat.eqb x 32 then 1%nat
      else
        match r with
        | String b r' =>
            let y := nat_of_ascii b in
            if Nat.eqb x 194 && Nat.eqb y 160 then 2%nat          (* U+00A0 *)
            else
              match r' with
              | String c _ =>
                  let z := nat_of_ascii c in
                  if Nat.eqb x 225 && Nat.eqb y 154 && Nat.eqb z 128
                  then 3%nat                                      (* U+1680 *)
                  else if Nat.eqb x 226 && Nat.eqb y 128 &&
                          ((Nat.leb 128 z && Nat.leb z 138)       (* U+2000-200A *)
                           || Nat.eqb z 168 || Nat.eqb z 169      (* U+2028, U+2029 *)
                           || Nat.eqb z 175)                      (* U+202F *)
                  then 3%nat
                  else if Nat.eqb x 226 && Nat.eqb y 129 && Nat.eqb z 159
                  then 3%nat                                      (* U+205F *)
                  else if Nat.eqb x 227 && Nat.eqb y 128 && Nat.eqb z 128
                  then 3%nat                                      (* U+3000 *)
                  else if Nat.eqb x 239 && Nat.eqb y 187 && Nat.eqb z 191
                  then 3%nat                                      (* U+FEFF *)
                  else 0%nat
              | EmptyString => 0%nat
              end
        | EmptyString => 0%nat
        end
  | EmptyString => 0%nat
  end.

(** [s.trimStart()], on at most [fuel] bytes. *)
Fixpoint trimStart_fuel (fuel : nat) (s : string) : string :=
  match fuel with
  | O => s
  | S k =>
      match white_space_bytes s, s with
      | 1%nat, String _ r => trimStart_fuel k r
      | 2%nat, String _ (String _ r) => trimStart_fuel k r
      | 3%nat, String _ (String _ (String _ r)) => trimStart_fuel k r
      | _, _ => s
      end
  end.

Definition trimStart (s : string) : string :=
  trimStart_fuel (String.length s) s.

(** Truthiness of [s.trim()]: the trimmed string is empty exactly when
    [s] is white space throughout, that is when nothing is left after
    the white space at its start. *)
Definition trim_truthy (s : string) : bool :=
  negb (String.eqb (trimStart s) "").

(** Every character of [s] is an ASCII blank: a tab, a line feed, a
    vertical tab, a form feed, a carriage return or a space. *)
Fixpoint ascii_blank (s : string) : bool :=
  match s with
  | EmptyString => true
  | String a r =>
      let x := nat_of_ascii a in
      ((Nat.leb 9 x && Nat.leb x 13) || Nat.eqb x 32) && ascii_blank r
  end.

End JSString.

(** The dashboard: section toggles, the name of the downloaded report,
    and what the invariants of its status field speak about. *)
Module DashboardExtra.
Import Dashboard Invariant.

Inductive SectionName := summary | keyPoints | actionItems | transcript.

(** [setOpenSections(prev => ({ ...prev, [section]: !prev[section] }))]. *)
Definition toggleSection (section : SectionName)
    (prev : DashboardView.OpenSections) : DashboardView.OpenSections :=
  match section with
  | summary =>
      {| DashboardView.summary := negb (DashboardView.summary prev);
         DashboardView.keyPoints := DashboardView.keyPoints prev;
         DashboardView.actionItems := DashboardView.actionItems prev;
         DashboardView.transcript := DashboardView.transcript prev |}
  | keyPoints =>
      {| DashboardView.summary := DashboardView.summary prev;
         DashboardView.keyPoints := negb (DashboardView.keyPoints prev);
         DashboardView.actionItems := DashboardView.actionItems prev;
         DashboardView.transcript := DashboardView.transcript prev |}
  | actionItems =>
      {| DashboardView.summary := DashboardView.summary prev;
         DashboardView.keyPoints := DashboardView.keyPoints prev;
         DashboardView.actionItems := negb (DashboardView.actionItems prev);
         DashboardView.transcript := DashboardView.transcript prev |}
  | transcript =>
      {| DashboardView.summary := DashboardView.summary prev;
         DashboardView.keyPoints := DashboardView.keyPoints prev;
         DashboardView.actionItems := DashboardView.actionItems prev;
         DashboardView.transcript := negb (DashboardView.transcript prev) |}
  end.

(** The [a.download] of [downloadReport]. *)
Definition report_download_name (original_filename : string) : string :=
  JSString.remove_last_extension original_filename ++ "_summary.txt".

(** The status of an item and its payload fields tell the same story. *)
Definition agrees (f : FileItem) : Prop :=
  match status f with
  | processing => no_payload f
  | completed => result f <> None /\ partialResult f = None /\ error f = None
  | error_ =>
      result f = None /\
      ((partialResult f <> None /\ error f = None) \/
       (partialResult f = None /\ error f <> None))
  end.

(** Facts about the items and the pending [/api/process] calls that hold
    in every reachable state, next to [inv]. *)
Record inv2 (fs : list FileItem) (cs : list ProcessCall) : Prop := {
  ids_unique : NoDup (map id fs);
  call_processing : forall c f, In c cs -> In f fs -> id f = call_fileId c ->
                      status f = processing;
  processing_called : forall f, In f fs -> status f = processing ->
                        In (id f) (map call_fileId cs);
  status_agrees : forall f, In f fs -> agrees f
}.

Definition Inv2 (st : State) : Prop :=
  Inv st /\ inv2 (files st) (process_calls st).

(** The four ways an event changes the item list and the pending calls. *)
Inductive files_step (st st' : State) : Prop :=
| step_same :
    files st' = files st -> process_calls st' = process_calls st ->
    files_step st st'
| step_processFile (item : FileItem) (u : option User.t) :
    ~ In (id item) (map id (files st)) ->
    status item = processing -> no_payload item ->
    files st' = item :: files st ->
    process_calls st' =
      (process_calls st ++ [{| call_fileId := id item; call_user := u |}])%list ->
    files_step st st'
| step_settled (n : nat) (c : ProcessCall) (g : FileItem -> FileItem) :
    nth_error (process_calls st) n = Some c ->
    touches_only (call_fileId c) g ->
    (forall f, id f = call_fileId c -> no_payload f ->
       status (g f) <> processing /\ agrees (g f)) ->
    files st' = map g (files st) ->
    process_calls st' = remove_nth n (process_calls st) ->
    files_step st st'
| step_retried (n : nat) (r : RetryCall) (g : FileItem -> FileItem) :
    nth_error (retry_calls st) n = Some r ->
    (forall f, id (g f) = id f) ->
    (forall f, g f = f \/
       (retry_selectedFileId r = Some (id f) /\
        status (g f) = completed /\ agrees (g f))) ->
    files st' = map g (files st) ->
    process_calls st' = process_calls st ->
    files_step st st'.

(** The retry button and its pending request. *)
Definition retry_in_step (st : State) : Prop :=
  if isRetrying st then List.length (retry_calls st) = 1%nat
  else retry_calls st = [].

(** Everything of the state but the selection. *)
Definition same_but_selection (st st' : State) : Prop :=
  user st' = user st /\ files st' = files st /\
  isDragging st' = isDragging st /\ isRetrying st' = isRetrying st /\
  userCredits st' = userCredits st /\ probes st' = probes st /\
  process_calls st' = process_calls st /\ retry_calls st' = retry_calls st /\
  balance_calls st' = balance_calls st /\ requests st' = requests st /\
  alerts st' = alerts st.

End DashboardExtra.

(** The interpolated numbers below a node, in document order. *)
Module JSXExtra.
Import JSX.

Fixpoint numbers (n : Node) : list Z :=
  match n with
  | text _ => []
  | number v => [v]
  | element _ _ children => flat_map numbers children
  end.

End JSXExtra.

(** [ResultDisplay]: the set of expanded sections and the download name. *)
Module ResultDisplayExtra.
Import ResultDisplay.

(** [newSet.delete(section)] and [newSet.add(section)] on a [Set] kept in
    insertion order. *)
Definition delete (section : SectionKey) (s : list SectionKey) : list SectionKey :=
  filter (fun k => negb (SectionKey_eqb k section)) s.

Definition add (section : SectionKey) (s : list SectionKey) : list SectionKey :=
  if has s section then s else (s ++ [section])%list.

(** [toggleSection]. *)
Definition toggleSection (section : SectionKey) (prev : list SectionKey)
    : list SectionKey :=
  if has prev section then delete section prev else add section prev.

(** The [link.download] of [downloadAsText]. *)
Definition download_name (original_filename : string) : string :=
  "meeting-notes-" ++
  match JSString.first_segment original_filename with
  | Some base => base
  | None => "undefined"
  end ++ ".txt".

End ResultDisplayExtra.

(** The admin console: the key in [localStorage] across page loads. *)
Module AdminExtra.
Import Admin.

(** The [useState] values of a page that has just loaded, with what
    [localStorage] holds. *)
Definition loaded (stored_key : option string) : State :=
  {| activeTab := pending; purchases := []; history := []; loading := true;
     adminKey := ""; authenticated := false; selectedPurchase := None;
     actionLoading := None; error := None;
     localStorage_admin_key := stored_key; requests := [] |}.

(** The mount effect; [keyFromUrl] is [searchParams.get("key")] and
    [savedKey] is [localStorage.getItem("admin_key")]. *)
Definition mount (keyFromUrl : option string) (st : State) : State :=
  let savedKey := localStorage_admin_key st in
  match (if JS.truthy keyFromUrl then keyFromUrl else None),
        (if JS.truthy savedKey then savedKey else None) with
  | Some k, _ =>
      {| activeTab := activeTab st; purchases := purchases st;
         history := history st; loading := loading st;
         adminKey := k; authenticated := true;
         selectedPurchase := selectedPurchase st;
         actionLoading := actionLoading st; error := error st;
         localStorage_admin_key := Some k; requests := requests st |}
  | None, Some v =>
      {| activeTab := activeTab st; purchases := purchases st;
         history := history st; loading := loading st;
         adminKey := v; authenticated := true;
         selectedPurchase := selectedPurchase st;
         actionLoading := actionLoading st; error := error st;
         localStorage_admin_key := localStorage_admin_key st;
         requests := requests st |}
  | None, None =>
      {| activeTab := activeTab st; purchases := purchases st;
         history := history st; loading := false;
         adminKey := adminKey st; authenticated := authenticated st;
         selectedPurchase := selectedPurchase st;
         actionLoading := actionLoading st; error := error st;
         localStorage_admin_key := localStorage_admin_key st;
         requests := requests st |}
  end.

(** The effect on [authenticated, adminKey]:
    [if (authenticated && adminKey) fetchData()]. *)
Definition fetch_effect (st : State) : State :=
  if authenticated st && JS.truthy (Some (adminKey st)) then fetchData st else st.

(** The [onChange] of the key input: [setAdminKey(e.target.value)]. *)
Definition setAdminKey (v : string) (st : State) : State :=
  {| activeTab := activeTab st; purchases := purchases st;
     history := history st; loading := loading st;
     adminKey := v; authenticated := authenticated st;
     selectedPurchase := selectedPurchase st;
     actionLoading := actionLoading st; error := error st;
     localStorage_admin_key := localStorage_admin_key st;
     requests := requests st |}.

Definition handleLogin (st : State) : State :=
  if JSString.trim_truthy (adminKey st) then
    {| activeTab := activeTab st; purchases := purchases st;
       history := history st; loading := true;
       adminKey := adminKey st; authenticated := true;
       selectedPurchase := selectedPurchase st;
       actionLoading := actionLoading st; error := None;
       localStorage_admin_key := Some (adminKey st);
       requests := requests st |}
  else st.

Definition handleLogout (st : State) : State :=
  {| activeTab := activeTab st; purchases := []; history := [];
     loading := loading st; adminKey := ""; authenticated := false;
     selectedPurchase := selectedPurchase st;
     actionLoading := actionLoading st; error := error st;
     localStorage_admin_key := None; requests := requests st |}.

End AdminExtra.

(** The purchase page: the answer to the submitted form. *)
Module BuyCreditsExtra.
Import BuyCredits.


End BuyCreditsExtra.

(** * Pre-submission validation *)
Module ValidationProofs.
Import Dashboard Scenario.
Local Open Scope list_scope.

(** A failed credit check ends the handler with its alert. *)
Lemma check_and_process_no_credit (file : option File.t) (uuid : string) (st : State) :
  checkCredits st = false ->
  check_and_process file uuid st =
    alert (Text "Credit tidak cukup. Silakan top up credit Anda.") st.
Proof.
  intros H. unfold check_and_process. rewrite H. reflexivity.
Qed.

Lemma checkCredits_low (st : State) (c : Credits) :
  userCredits st = Some c -> free c + paid c < 1 -> checkCredits st = false.
Proof.
  intros Hc Hlt. unfold checkCredits. rewrite Hc.
  rewrite Z.geb_leb. apply Z.leb_gt. lia.
Qed.

Lemma handler_while_processing (file : option File.t) (uuid : string) (st : State) :
  isProcessing st = true ->
  handleFileInput file uuid st = st /\
  handleDrop file uuid st = setIsDragging false st.
Proof.
  intros H. unfold handleFileInput, handleDrop.
  replace (isProcessing (setIsDragging false st)) with (isProcessing st) by reflexivity.
  rewrite H. split; reflexivity.
Qed.

(** C3. With a balance of [free + paid < 1], [handleFileInput] and
    [handleDrop] refuse every upload, whatever the file is: no item is
    added, no media element is created for the duration probe (the credit
    check comes first), no [/api/process] call is started and nothing is
    sent; and whenever the upload controls are enabled (no item is
    processing) the user is told so by the insufficient-credit alert. *)
Theorem insufficient_credits_refused
    (st : State) (c : Credits) (file : option File.t) (uuid : string) :
  userCredits st = Some c ->
  free c + paid c < 1 ->
  forall st', st' = handleFileInput file uuid st \/ st' = handleDrop file uuid st ->
    files st' = files st /\
    probes st' = probes st /\
    process_calls st' = process_calls st /\
    requests st' = requests st /\
    (isProcessing st = false ->
     alerts st' =
       alerts st ++ [Text "Credit tidak cukup. Silakan top up credit Anda."]).
Proof.
  intros Hc Hlt st' Hst'.
  pose proof (checkCredits_low st c Hc Hlt) as Hno.
  destruct (isProcessing st) eqn:Hp.
  - destruct (handler_while_processing file uuid st Hp) as [H1 H2].
    destruct Hst' as [-> | ->]; [rewrite H1 | rewrite H2];
      repeat split; try reflexivity; discriminate.
  - assert (Hd : checkCredits (setIsDragging false st) = false) by exact Hno.
    destruct Hst' as [-> | ->]; unfold handleFileInput, handleDrop;
      replace (isProcessing (setIsDragging false st)) with (isProcessing st)
        by reflexivity;
      rewrite Hp;
      rewrite check_and_process_no_credit by assumption;
      repeat split; reflexivity.
Qed.

Lemma insufficient_credits_refused_witness :
  isProcessing no_credit_state = false /\
  alerts (handleDrop (Some a_mp3) "id-a" no_credit_state) =
    [Text "Credit tidak cukup. Silakan top up credit Anda."] /\
  probes (handleDrop (Some a_mp3) "id-a" no_credit_state) = [].
Proof.
  pose proof (insufficient_credits_refused no_credit_state
                {| total := 0; free := 0; paid := 0; maxDuration := 20 |}
                (Some a_mp3) "id-a" eq_refl ltac:(simpl; lia)
                (handleDrop (Some a_mp3) "id-a" no_credit_state)
                (or_intror eq_refl)) as (_ & Hprobes & _ & _ & Halerts).
  split; [reflexivity |].
  split; [exact (Halerts eq_refl) | exact Hprobes].
Defined.

(** C2, as stated, fails: [notes.txt] is outside the allow-list, but with
    an empty balance the credit check runs first and the alert is the one
    for insufficient credits, not the one for the format.  Nor is the
    extension compared as it is written: [.MKV] is not a member of the
    allow-list, and [RAPAT.MKV] is uploaded, because the extension is
    lower-cased first.  And a name without a dot has no extension, yet
    the file named [mp3] is uploaded: [split(".").pop()] gives the whole
    name. *)
Lemma unsupported_format_behind_credit_check :
  JS.includes ALLOWED_EXTENSIONS (ext_of notes_txt) = false /\
  isProcessing no_credit_state = false /\
  alerts (handleFileInput (Some notes_txt) "id-n" no_credit_state) =
    alerts no_credit_state ++
      [Text "Credit tidak cukup. Silakan top up credit Anda."] /\
  alerts (handleFileInput (Some notes_txt) "id-n" no_credit_state) <>
    alerts no_credit_state ++ [Text "Format file tidak didukung"] /\
  FileName.extension (File.name notes_txt) = Some ".txt"%string /\
  let upper := {| File.name := "RAPAT.MKV"; File.size := 1000; File.type := "" |} in
  let bare := {| File.name := "mp3"; File.size := 1000; File.type := "" |} in
  let st := state_after [balance_settled (Some two_free_credits)] in
  FileName.extension (File.name upper) = Some ".MKV"%string /\
  JS.includes ALLOWED_EXTENSIONS ".MKV" = false /\
  map id (files (handleFileInput (Some upper) "id-u" st)) = ["id-u"%string] /\
  requests (handleFileInput (Some upper) "id-u" st) =
    requests st ++
      [{| method := "POST"; path := "/api/process";
          query := [("user_id"%string, "user-1"%string)];
          body := FormData [("file"%string, FormFile upper)] |}] /\
  FileName.extension (File.name bare) = None /\
  map id (files (handleFileInput (Some bare) "id-m" st)) = ["id-m"%string] /\
  requests (handleFileInput (Some bare) "id-m" st) =
    requests st ++
      [{| method := "POST"; path := "/api/process";
          query := [("user_id"%string, "user-1"%string)];
          body := FormData [("file"%string, FormFile bare)] |}].
Proof.
  repeat split; try reflexivity. vm_compute. discriminate.
Qed.

(** A file whose extension as [validateFile] computes it is outside the
    allow-list is refused by both handlers. *)
Lemma outside_allow_list_rejected
    (st : State) (file : File.t) (uuid : string) :
  JS.includes ALLOWED_EXTENSIONS (ext_of file) = false ->
  forall st',
    st' = handleFileInput (Some file) uuid st \/ st' = handleDrop (Some file) uuid st ->
    files st' = files st /\
    probes st' = probes st /\
    process_calls st' = process_calls st /\
    requests st' = requests st /\
    (isProcessing st = false -> checkCredits st = true ->
     alerts st' = alerts st ++ [Text "Format file tidak didukung"]).
Proof.
  intros Hext st' Hst'.
  assert (Hv : validateFile file = Some "Format file tidak didukung").
  { unfold validateFile. rewrite Hext. reflexivity. }
  assert (Hcp : forall s, check_and_process (Some file) uuid s =
                  if negb (checkCredits s)
                  then alert (Text "Credit tidak cukup. Silakan top up credit Anda.") s
                  else alert (Text "Format file tidak didukung") s).
  { intros s. unfold check_and_process. rewrite Hv. reflexivity. }
  destruct (isProcessing st) eqn:Hp.
  - destruct (handler_while_processing (Some file) uuid st Hp) as [H1 H2].
    destruct Hst' as [-> | ->]; [rewrite H1 | rewrite H2];
      repeat split; try reflexivity; discriminate.
  - destruct Hst' as [-> | ->]; unfold handleFileInput, handleDrop;
      replace (isProcessing (setIsDragging false st)) with (isProcessing st)
        by reflexivity;
      rewrite Hp, Hcp;
      replace (checkCredits (setIsDragging false st)) with (checkCredits st)
        by reflexivity;
      destruct (checkCredits st); simpl;
      repeat split; try reflexivity; intros; discriminate.
Qed.

(** *** The extension of the name and the one [validateFile] computes *)

Lemma extension_none_split (s : string) :
  FileName.extension s = None -> JS.split "." s = [s].
Proof.
  induction s as [| c r IH]; [reflexivity |].
  simpl. destruct (FileName.extension r); [discriminate |].
  destruct (Ascii.eqb c "."); [discriminate |].
  intros _. now rewrite IH.
Qed.

Lemma extension_last_segment (s e : string) :
  FileName.extension s = Some e ->
  exists x,
    e = String "." x /\ JS.pop (JS.split "." s) = Some x /\
    (2 <= List.length (JS.split "." s))%nat.
Proof.
  revert e. induction s as [| c r IH]; intros e He; [discriminate |].
  simpl in He. destruct (FileName.extension r) as [e' |] eqn:Hr.
  - injection He as <-.
    destruct (IH e' eq_refl) as (x & -> & Hpop & Hlen).
    exists x. split; [reflexivity |].
    cbn [JS.split].
    destruct (JS.split "." r) as [| h [| y t]]; simpl in Hlen; try lia.
    destruct (Ascii.eqb c "."); split; simpl in *; try exact Hpop; lia.
  - destruct (Ascii.eqb c ".") eqn:Hc; [| discriminate].
    injection He as <-. apply Ascii.eqb_eq in Hc. subst c.
    exists r. split; [reflexivity |].
    cbn [JS.split]. rewrite (extension_none_split r Hr).
    split; [reflexivity | simpl; lia].
Qed.

Lemma toLowerCase_dot (x : string) :
  JS.toLowerCase (String "." x) = String "." (JS.toLowerCase x).
Proof.
  destruct x as [| c1 [| c2 x]]; reflexivity.
Qed.

Lemma extension_ext_of (file : File.t) (e : string) :
  FileName.extension (File.name file) = Some e ->
  ext_of file = JS.toLowerCase e.
Proof.
  intros He.
  destruct (extension_last_segment _ _ He) as (x & -> & Hpop & _).
  unfold ext_of. rewrite Hpop, toLowerCase_dot. reflexivity.
Qed.

(** C2, amended. Every selected file whose name has an extension (the
    part of the name from its last dot on) that, once lower-cased, is
    outside the allow-list never gets an item, a media element, an
    [/api/process] call or any network request from [handleFileInput] or
    [handleDrop]; when no item is processing and the credit check
    passes, the alert is the one for the unsupported format.  Names
    without a dot are not covered. *)
Theorem unsupported_format_rejected
    (st : State) (file : File.t) (uuid : string) (extension : string) :
  FileName.extension (File.name file) = Some extension ->
  JS.includes ALLOWED_EXTENSIONS (JS.toLowerCase extension) = false ->
  forall st',
    st' = handleFileInput (Some file) uuid st \/ st' = handleDrop (Some file) uuid st ->
    files st' = files st /\
    probes st' = probes st /\
    process_calls st' = process_calls st /\
    requests st' = requests st /\
    (isProcessing st = false -> checkCredits st = true ->
     alerts st' = alerts st ++ [Text "Format file tidak didukung"]).
Proof.
  intros He Hout. apply outside_allow_list_rejected.
  now rewrite (extension_ext_of file extension He).
Qed.

Lemma unsupported_format_rejected_witness :
  alerts (handleFileInput (Some notes_txt) "id-n"
            (state_after [balance_settled (Some two_free_credits)])) =
    [Text "Format file tidak didukung"].
Proof.
  pose proof (unsupported_format_rejected
                (state_after [balance_settled (Some two_free_credits)])
                notes_txt "id-n" ".txt" eq_refl eq_refl
                (handleFileInput (Some notes_txt) "id-n"
                   (state_after [balance_settled (Some two_free_credits)]))
                (or_introl eq_refl)) as (_ & _ & _ & _ & Halerts).
  exact (Halerts eq_refl eq_refl).
Defined.

(** [split(".").pop()] gives the whole name when it has no dot: a file
    named [mp3] passes the extension check, one named [notes] does not. *)
Example validateFile_without_dot :
  validateFile {| File.name := "mp3"; File.size := 10; File.type := "" |} = None /\
  validateFile {| File.name := "notes"; File.size := 10; File.type := "" |} =
    Some "Format file tidak didukung" /\
  ext_of {| File.name := "Rapat.Senin.MP4"; File.size := 10; File.type := "" |} =
    ".mp4"%string.
Proof.
  repeat split; reflexivity.
Qed.

(** The extension is lower-cased the way the browser does it: the
    Kelvin sign (U+212A, three bytes in UTF-8) lower-cases to [k], so a
    name ending in [.m], the Kelvin sign and [v] has the extension
    [.mkv]. *)
Example validateFile_kelvin_sign :
  let name := ("rapat.m" ++ String "226" (String "132" (String "170" "v")))%string in
  ext_of {| File.name := name; File.size := 10; File.type := "" |} = ".mkv"%string /\
  validateFile {| File.name := name; File.size := 10; File.type := "" |} = None.
Proof.
  split; reflexivity.
Qed.

End ValidationProofs.

(** * The proof-upload form of the purchase page *)
Module BuyCreditsProofs.
Import BuyCredits.
Local Open Scope list_scope.

(** C10. When a proof file is selected and the user then chooses a file
    whose MIME type is not one of the three image types or whose size is
    above 5MB, [handleFileChange] sets an error message and keeps the
    earlier file: the submit button is as enabled as before, and
    submitting posts the earlier file. *)
Theorem rejected_proof_keeps_previous
    (st : State) (previous file : File.t) :
  proofFile st = Some previous ->
  JS.includes allowedTypes (File.type file) = false \/
  File.size file > 5 * 1024 * 1024 ->
  let st' := handleFileChange (Some file) st in
  (exists msg, error st' = Some msg) /\
  proofFile st' = Some previous /\
  submit_disabled st' = submit_disabled st /\
  forall pkg u,
    selectedPackage st = Some pkg -> user st = Some u ->
    requests (handleSubmit st') =
      requests st ++ [purchase_request u pkg previous].
Proof.
  intros Hprev Hbad. cbv zeta.
  assert (Hst' : exists msg, handleFileChange (Some file) st = setError (Some msg) st).
  { unfold handleFileChange.
    destruct (JS.includes allowedTypes (File.type file)) eqn:Hty.
    - destruct Hbad as [Hbad | Hbad]; [discriminate |].
      apply Z.gtb_gt in Hbad. rewrite Hbad. eexists. reflexivity.
    - eexists. reflexivity. }
  destruct Hst' as [msg ->].
  split; [exists msg; reflexivity |].
  split; [exact Hprev |].
  split; [reflexivity |].
  intros pkg u Hpkg Hu. unfold handleSubmit. simpl.
  rewrite Hpkg, Hprev, Hu. reflexivity.
Qed.

Lemma rejected_proof_keeps_previous_witness :
  proofFile (handleFileChange (Some Examples.invoice_pdf) Examples.proof_selected) =
    Some Examples.bukti_png /\
  requests (handleSubmit
              (handleFileChange (Some Examples.invoice_pdf) Examples.proof_selected)) =
    [purchase_request Scenario.user1 Examples.starter Examples.bukti_png].
Proof.
  pose proof (rejected_proof_keeps_previous Examples.proof_selected
                Examples.bukti_png Examples.invoice_pdf eq_refl
                (or_introl eq_refl)) as (_ & Hkept & _ & Hsubmit).
  split; [exact Hkept |].
  exact (Hsubmit Examples.starter Scenario.user1 eq_refl eq_refl).
Defined.

End BuyCreditsProofs.

(** * The result views *)
Module ViewProofs.
Import JSX.
Local Open Scope list_scope.

(** C8, as stated, fails for the key points: with no key point the
    expanded section of the dashboard is the bare content container,
    without any child, and the only text of the section is its title;
    the one of [ResultDisplay] is an empty list element under the title
    and the count badge. *)
Lemma empty_key_points_render_nothing :
  let s := {| data.ringkasan_singkat := "Rapat mingguan tim.";
              data.poin_penting := [];
              data.action_items := ["Kirim notulen"] |} in
  DashboardView.KeyPoints_content s = element "div" "result-section-content" [] /\
  texts (DashboardView.section "Key Points" true (DashboardView.KeyPoints_content s)) =
    ["Key Points"] /\
  ResultDisplay.Points_content s =
    element "div" "result-content" [element "ul" "space-y-3" []] /\
  texts (ResultDisplay.Points_section ResultDisplay.initial_expandedSections s) =
    ["Poin Penting"].
Proof.
  repeat split; reflexivity.
Qed.

(** C8, amended. For every result whose action-items list has length 0,
    both result views render, in the expanded action-items section, the
    explicit message that no action item was detected, and nothing else
    in that container; the key-points section has no such message and
    renders one entry per key point. *)
Theorem empty_action_items_message (s : data.Summary) :
  List.length (data.action_items s) = 0%nat ->
  (DashboardView.ActionItems_content s =
     element "div" "result-section-content"
       [element "p" "" [text "Tidak ada action items terdeteksi."]] /\
   forall open, DashboardView.actionItems open = true ->
     In "Tidak ada action items terdeteksi."%string
        (flat_map texts (DashboardView.result_sections open s))) /\
  (ResultDisplay.Actions_content s =
     element "div" "result-content"
       [element "p" "text-[var(--text-muted)] text-center py-4"
          [text "Tidak ada action items yang terdeteksi"]] /\
   forall expandedSections,
     ResultDisplay.has expandedSections ResultDisplay.actions = true ->
     In "Tidak ada action items yang terdeteksi"%string
        (texts (ResultDisplay.Actions_section expandedSections s))) /\
  DashboardView.KeyPoints_content s =
    element "div" "result-section-content"
      (map (fun point =>
              element "div" "key-point"
                [element "div" "key-point-bullet" [];
                 element "span" "" [text point]])
           (data.poin_penting s)).
Proof.
  intros Hlen.
  assert (Hd : DashboardView.ActionItems_content s =
               element "div" "result-section-content"
                 [element "p" "" [text "Tidak ada action items terdeteksi."]]).
  { unfold DashboardView.ActionItems_content. now rewrite Hlen. }
  assert (Hr : ResultDisplay.Actions_content s =
               element "div" "result-content"
                 [element "p" "text-[var(--text-muted)] text-center py-4"
                    [text "Tidak ada action items yang terdeteksi"]]).
  { unfold ResultDisplay.Actions_content. now rewrite Hlen. }
  split; [| split]; [split; [exact Hd |] | split; [exact Hr |] | reflexivity].
  - intros open Hopen. apply in_flat_map.
    exists (DashboardView.section "Action Items" (DashboardView.actionItems open)
              (DashboardView.ActionItems_content s)).
    split; [unfold DashboardView.result_sections; simpl; auto |].
    rewrite Hopen, Hd. simpl. auto.
  - intros expandedSections Hopen. unfold ResultDisplay.Actions_section.
    rewrite Hopen, Hr. simpl. auto.
Qed.

Lemma empty_action_items_message_witness :
  DashboardView.ActionItems_content Scenario.rapat =
    element "div" "result-section-content"
      [element "p" "" [text "Tidak ada action items terdeteksi."]].
Proof.
  exact (proj1 (proj1 (empty_action_items_message Scenario.rapat eq_refl))).
Defined.

End ViewProofs.

(** * The admin console *)
Module AdminProofs.
Import Admin Examples.
Local Open Scope list_scope.

(** C9, as stated, fails for approve and reject: when the approve call
    answers 401, the key stays in [localStorage] and the console stays
    authenticated; only the generic failure message is set.  The same
    holds for a 401 of the history list next to a 200 of the pending
    list. *)
Lemma unauthorized_action_keeps_key :
  let st := handleAction_settled "p1" approve [] "2026-01-01T00:00:00.000Z"
              (Some 401) (handleAction "p1" approve signed_in) in
  localStorage_admin_key st = Some "s3cret" /\
  authenticated st = true /\
  error st = Some "Aksi gagal" /\
  let st2 := fetchData_settled
               (lists_responses 200 (parsed (Some [])) 401 (parsed None))
               (fetchData signed_in) in
  localStorage_admin_key st2 = Some "s3cret" /\ authenticated st2 = true.
Proof.
  repeat split; reflexivity.
Qed.

(** C9, amended. When both list calls of [fetchData] are answered and
    the answer of the pending list has status 401, the persisted admin
    key is removed from [localStorage] and the console is back in the
    unauthenticated login state, with the invalid-key message, whatever
    the history call answered.  When one of the two calls fails outright
    (so that [Promise.all] rejects, whatever the other call answered),
    only the load-failure message is set, and the stored key and the
    authenticated flag are left as they were.  An approve or reject call
    that is not ok (401 included) only sets the action-failure message,
    and leaves the stored key and the authenticated flag as they were. *)
Theorem unauthorized_pending_clears_key
    (st : State) (pendingBody historyBody : Json) (historyStatus : Z) :
  let st' := fetchData_settled
               (lists_responses 401 pendingBody historyStatus historyBody) st in
  (localStorage_admin_key st' = None /\
   authenticated st' = false /\
   error st' = Some "Admin key tidak valid" /\
   loading st' = false) /\
  (forall purchaseId action shown now status,
    JS.ok status = false ->
    let st2 := handleAction_settled purchaseId action shown now (Some status) st in
    localStorage_admin_key st2 = localStorage_admin_key st /\
    authenticated st2 = authenticated st /\
    error st2 = Some "Aksi gagal") /\
  (let st3 := fetchData_settled lists_threw st in
   localStorage_admin_key st3 = localStorage_admin_key st /\
   authenticated st3 = authenticated st /\
   error st3 = Some "Gagal memuat data" /\
   loading st3 = false).
Proof.
  simpl. split; [repeat split |]. split; [| repeat split].
  intros purchaseId action shown now status Hok.
  unfold handleAction_settled. rewrite Hok. simpl. repeat split.
Qed.

Lemma unauthorized_pending_clears_key_witness :
  localStorage_admin_key
    (handleAction_settled "p1" reject [] "2026-01-01T00:00:00.000Z"
       (Some 401) signed_in) = Some "s3cret".
Proof.
  exact (proj1 (proj1 (proj2 (unauthorized_pending_clears_key signed_in invalid
                                invalid 401))
                  "p1" reject [] "2026-01-01T00:00:00.000Z" 401 eq_refl)).
Defined.

End AdminProofs.

(** * The dashboard: reachable states and their invariant *)
Module ReachProofs.
Import Dashboard Invariant.
Local Open Scope list_scope.

(** *** Lists of pending continuations *)

Lemma In_remove_nth {A} (n : nat) (l : list A) (x : A) :
  In x (remove_nth n l) -> In x l.
Proof.
  revert n. induction l as [| a l IH]; intros [| n] H; simpl in *; auto.
  destruct H as [-> | H]; eauto.
Qed.

Lemma map_remove_nth {A B} (g : A -> B) (n : nat) (l : list A) :
  map g (remove_nth n l) = remove_nth n (map g l).
Proof.
  revert n. induction l as [| a l IH]; intros [| n]; simpl; auto.
  now rewrite IH.
Qed.

Lemma NoDup_remove_nth {A} (n : nat) (l : list A) :
  NoDup l -> NoDup (remove_nth n l).
Proof.
  intros H. revert n. induction H as [| a l Ha Hl IH]; intros [| n]; simpl;
    try constructor; auto.
  intros Hin. apply Ha. eapply In_remove_nth; eauto.
Qed.

Lemma removed_not_In {A} (n : nat) (l : list A) (x : A) :
  NoDup l -> nth_error l n = Some x -> ~ In x (remove_nth n l).
Proof.
  intros H. revert n. induction H as [| a l Ha Hl IH]; intros [| n] Hn; simpl in *;
    try discriminate.
  - injection Hn as <-. exact Ha.
  - intros [-> | Hin].
    + apply Ha. eapply nth_error_In; eauto.
    + eapply IH; eauto.
Qed.

Lemma remove_nth_last {A} (l : list A) (x : A) :
  remove_nth (List.length l) (l ++ [x]) = l.
Proof.
  induction l as [| a l IH]; simpl; auto. now rewrite IH.
Qed.

Lemma nth_error_last {A} (l : list A) (x : A) :
  nth_error (l ++ [x]) (List.length l) = Some x.
Proof.
  induction l as [| a l IH]; simpl; auto.
Qed.

Lemma NoDup_snoc {A} (l : list A) (x : A) :
  NoDup l -> ~ In x l -> NoDup (l ++ [x]).
Proof.
  induction 1 as [| a l Ha Hl IH]; intros Hx; simpl.
  - constructor; [intros [] | constructor].
  - constructor.
    + rewrite in_app_iff. intros [H | [H | []]]; [auto |].
      apply Hx. left. auto.
    + apply IH. intros H. apply Hx. right. exact H.
Qed.

(** *** Updates of the item list *)

Lemma touches_only_updateFile (fileId : string) (u : Updates) :
  touches_only fileId
    (fun f => if String.eqb (id f) fileId then spread f u else f).
Proof.
  split; intros f.
  - destruct (String.eqb (id f) fileId); reflexivity.
  - intros Hne. apply String.eqb_neq in Hne. now rewrite Hne.
Qed.

Lemma touches_only_ids (target : string) (g : FileItem -> FileItem)
    (fs : list FileItem) :
  touches_only target g -> map id (map g fs) = map id fs.
Proof.
  intros [Hid _]. rewrite map_map. apply map_ext. exact Hid.
Qed.

Lemma touches_only_fresh (target : string) (g : FileItem -> FileItem)
    (fs : list FileItem) :
  touches_only target g -> ~ In target (map id fs) -> map g fs = fs.
Proof.
  intros [_ Hoff] Hfresh. rewrite <- (map_id fs) at 2.
  apply map_ext_in. intros f Hf. apply Hoff. intros Heq.
  apply Hfresh. rewrite <- Heq. now apply in_map.
Qed.

(** *** The invariant is kept by each kind of update *)

Lemma inv_probes fs ps ps' cs rs :
  inv fs ps cs rs ->
  (forall p, In p ps' -> probe_user p <> None) ->
  inv fs ps' cs rs.
Proof.
  intros [] Hps. constructor; auto.
Qed.

Lemma inv_retries fs ps cs rs rs' :
  inv fs ps cs rs ->
  (forall r sel, In r rs' -> retry_selectedFileId r = Some sel ->
     ~ In sel (map call_fileId cs) /\ In sel (map id fs)) ->
  inv fs ps cs rs'.
Proof.
  intros [] Hrs. constructor; auto; intros r sel Hr Hsel;
    destruct (Hrs r sel Hr Hsel); auto.
Qed.

Lemma inv_processFile fs ps cs rs (u : option User.t) (uuid : string)
    (item : FileItem) :
  inv fs ps cs rs ->
  ~ In uuid (map id fs) ->
  u <> None ->
  id item = uuid -> no_payload item ->
  inv (item :: fs) ps (cs ++ [{| call_fileId := uuid; call_user := u |}]) rs.
Proof.
  intros [] Hfresh Hu Hid Hnone.
  assert (Hcs : ~ In uuid (map call_fileId cs)).
  { intros H. apply in_map_iff in H as (c & <- & Hc). apply Hfresh. auto. }
  constructor; auto.
  - intros c Hc. apply in_app_iff in Hc as [Hc | [<- | []]]; auto.
  - intros c Hc. simpl. apply in_app_iff in Hc as [Hc | [<- | []]]; auto.
  - rewrite map_app. simpl. apply NoDup_snoc; auto.
  - intros c f Hc [<- | Hf] Heq; auto.
    apply in_app_iff in Hc as [Hc | [<- | []]]; eauto.
    simpl in Heq. exfalso. apply Hfresh. rewrite <- Heq. now apply in_map.
  - intros r sel Hr Hsel. rewrite map_app, in_app_iff. simpl.
    intros [H | [H | []]]; [eapply retry_done0; eauto |].
    subst sel. apply Hfresh. eauto.
  - intros r sel Hr Hsel. right. eauto.
  - intros f [<- | Hf]; auto.
    destruct Hnone as (H1 & H2 & H3). unfold payload_count.
    rewrite H1, H2, H3. simpl. lia.
Qed.

Lemma inv_settle fs ps cs rs (n : nat) (c : ProcessCall)
    (g : FileItem -> FileItem) :
  inv fs ps cs rs ->
  nth_error cs n = Some c ->
  touches_only (call_fileId c) g ->
  (forall f, no_payload f -> (payload_count (g f) <= 1)%nat) ->
  inv (map g fs) ps (remove_nth n cs) rs.
Proof.
  intros [] Hn Hg Hone.
  pose proof (touches_only_ids _ _ fs Hg) as Hids.
  destruct Hg as [Hid Hoff].
  assert (Hc : In c cs) by (eapply nth_error_In; eauto).
  assert (Hother : forall c', In c' (remove_nth n cs) ->
                     call_fileId c' <> call_fileId c).
  { intros c' Hc' Heq.
    apply (removed_not_In n (map call_fileId cs) (call_fileId c)); auto.
    - now apply map_nth_error.
    - rewrite <- map_remove_nth, <- Heq. now apply in_map. }
  constructor; auto.
  - intros c' Hc'. apply In_remove_nth in Hc'. auto.
  - intros c' Hc'. rewrite Hids. apply In_remove_nth in Hc'. auto.
  - rewrite map_remove_nth. now apply NoDup_remove_nth.
  - intros c' f' Hc' Hf' Heq.
    apply in_map_iff in Hf' as (f & <- & Hf). rewrite Hid in Heq.
    assert (Hne : id f <> call_fileId c) by (rewrite Heq; auto).
    rewrite (Hoff f Hne). apply In_remove_nth in Hc'. eauto.
  - intros r sel Hr Hsel Hin. rewrite map_remove_nth in Hin.
    apply In_remove_nth in Hin. eapply retry_done0; eauto.
  - intros r sel Hr Hsel. rewrite Hids. eauto.
  - intros f' Hf'. apply in_map_iff in Hf' as (f & <- & Hf).
    destruct (string_dec (id f) (call_fileId c)) as [Heq | Hne].
    + apply Hone. eauto.
    + rewrite Hoff; auto.
Qed.

Lemma inv_retry_ok fs ps cs rs (n : nat) (r : RetryCall)
    (g : FileItem -> FileItem) :
  inv fs ps cs rs ->
  nth_error rs n = Some r ->
  (forall f, id (g f) = id f) ->
  (forall f, g f = f \/
     (retry_selectedFileId r = Some (id f) /\ (payload_count (g f) <= 1)%nat)) ->
  inv (map g fs) ps cs (remove_nth n rs).
Proof.
  intros [] Hn Hid Hg.
  assert (Hr : In r rs) by (eapply nth_error_In; eauto).
  assert (Hids : map id (map g fs) = map id fs).
  { rewrite map_map. now apply map_ext. }
  constructor; auto.
  - intros c Hc. rewrite Hids. auto.
  - intros c f' Hc Hf' Heq.
    apply in_map_iff in Hf' as (f & <- & Hf). rewrite Hid in Heq.
    destruct (Hg f) as [-> | [Hsel _]]; eauto.
    exfalso. apply (retry_done0 r (id f) Hr Hsel).
    rewrite Heq. now apply in_map.
  - intros r' sel Hr'. apply In_remove_nth in Hr'. eauto.
  - intros r' sel Hr' Hsel. rewrite Hids. apply In_remove_nth in Hr'. eauto.
  - intros f' Hf'. apply in_map_iff in Hf' as (f & <- & Hf).
    destruct (Hg f) as [-> | [_ Hle]]; auto.
Qed.

(** *** The invariant is kept by each function of the page *)

Ltac same_components :=
  unfold Inv in *; simpl in *; assumption.

Ltac count_payload :=
  unfold defined; simpl;
  repeat match goal with
         | |- context [match ?x with _ => _ end] => destruct x
         end;
  lia.

Lemma enabled_fresh (uuid : string) (st : State) :
  negb (existsb (String.eqb uuid) (map id (files st))) = true -> fresh uuid st.
Proof.
  intros H Hin. apply negb_true_iff in H.
  assert (Ht : existsb (String.eqb uuid) (map id (files st)) = true).
  { apply existsb_exists. exists uuid. split; [exact Hin | apply String.eqb_refl]. }
  congruence.
Qed.

Lemma processFile_files (u : option User.t) (uuid : string) (file : File.t)
    (st : State) :
  fresh uuid st ->
  files (processFile u uuid file st) =
    spread (new_item uuid file)
      {| set_status := None; set_progress := Some (Some 10);
         set_result := None; set_partialResult := None; set_error := None |}
    :: files st.
Proof.
  intros Hfresh. unfold processFile. simpl.
  rewrite String.eqb_refl. f_equal.
  apply (touches_only_fresh uuid); [apply touches_only_updateFile | exact Hfresh].
Qed.

Lemma Inv_processFile (u : option User.t) (uuid : string) (file : File.t)
    (st : State) :
  Inv st -> fresh uuid st -> u <> None -> Inv (processFile u uuid file st).
Proof.
  intros HI Hfresh Hu. unfold Inv. rewrite processFile_files by assumption.
  simpl. apply inv_processFile; auto. repeat split.
Qed.

Lemma Inv_after_validateDuration (e : option AlertText) (u : option User.t)
    (uuid : string) (file : File.t) (st : State) :
  Inv st -> fresh uuid st -> u <> None ->
  Inv (after_validateDuration e u uuid file st).
Proof.
  intros HI Hfresh Hu. destruct e; simpl.
  - same_components.
  - now apply Inv_processFile.
Qed.

Lemma Inv_check_and_process (file : option File.t) (uuid : string) (st : State) :
  Inv st -> fresh uuid st -> user st <> None ->
  Inv (check_and_process file uuid st).
Proof.
  intros HI Hfresh Hu. unfold check_and_process.
  destruct (negb (checkCredits st)); [same_components |].
  destruct file as [file |]; [| assumption].
  destruct (validateFile file); [same_components |].
  destruct (validateDuration file) as [kind |].
  - unfold Inv. simpl. eapply inv_probes; [exact HI |].
    intros p Hp. apply in_app_iff in Hp as [Hp | [<- | []]]; [| exact Hu].
    now apply (probe_signed_in _ _ _ _ HI).
  - now apply Inv_after_validateDuration.
Qed.

Lemma Inv_processFile_settled (n : nat) (c : ProcessCall) (r : Fetched data.t)
    (st : State) :
  Inv st -> nth_error (process_calls st) n = Some c ->
  Inv (processFile_settled c r
         (set_process_calls (remove_nth n (process_calls st)) st)).
Proof.
  intros HI Hn.
  assert (Hupd : forall u,
            (forall f, no_payload f -> (payload_count (spread f u) <= 1)%nat) ->
            Inv (updateFile (call_fileId c) u
                   (set_process_calls (remove_nth n (process_calls st)) st))).
  { intros u Hu. unfold Inv. simpl.
    eapply inv_settle; eauto using touches_only_updateFile.
    intros f Hf. destruct (String.eqb (id f) (call_fileId c)); auto.
    destruct Hf as (H1 & H2 & H3). unfold payload_count.
    rewrite H1, H2, H3. simpl. lia. }
  assert (Hone : forall (u : Updates) f,
            no_payload f ->
            (defined (override None (set_result u)) +
             defined (override None (set_partialResult u)) +
             defined (override None (set_error u)) <= 1)%nat ->
            (payload_count (spread f u) <= 1)%nat).
  { intros u f (H1 & H2 & H3) Hle. unfold payload_count, spread. simpl.
    now rewrite H1, H2, H3. }
  unfold processFile_settled.
  destruct r as [err | status d].
  - apply Hupd. intros f Hf. apply Hone; [assumption | count_payload].
  - destruct (negb (JS.ok status)).
    + destruct (match data.status d with
                | Some s => String.eqb s "partial"
                | None => false
                end); apply Hupd; intros f Hf;
        (apply Hone; [assumption | count_payload]).
    + assert (HI' : Inv (updateFile (call_fileId c)
                {| set_status := Some completed; set_progress := Some (Some 100);
                   set_result := Some (Some d); set_partialResult := None;
                   set_error := None |}
                (set_process_calls (remove_nth n (process_calls st)) st))).
      { apply Hupd. intros f Hf. apply Hone; [assumption | count_payload]. }
      unfold fetchUserCredits. destruct (call_user c); [| exact HI'].
      same_components.
Qed.

Lemma selectedFile_In (st : State) (f : FileItem) :
  selectedFile st = Some f ->
  selectedFileId st = Some (id f) /\ In f (files st).
Proof.
  unfold selectedFile. destruct (selectedFileId st) as [sel |]; [| discriminate].
  intros H. apply find_some in H as [Hin Heq].
  apply String.eqb_eq in Heq. subst sel. auto.
Qed.

Lemma Inv_handleRetrySummarization (st : State) :
  Inv st -> Inv (handleRetrySummarization st).
Proof.
  intros HI. unfold handleRetrySummarization.
  destruct (selectedFile st) as [f |] eqn:Hsel; [| assumption].
  destruct (partialResult f) as [d |] eqn:Hpartial; [| assumption].
  destruct (data.cache_key d) as [key |]; [| assumption].
  destruct (JS.truthy (Some key)); [| assumption].
  apply selectedFile_In in Hsel as [Hid Hf].
  unfold Inv. simpl. eapply inv_retries; [exact HI |].
  intros r sel Hr Hrsel. apply in_app_iff in Hr as [Hr | [<- | []]].
  - split; [eapply retry_done | eapply retry_listed]; eauto.
  - simpl in Hrsel. rewrite Hid in Hrsel. injection Hrsel as <-. split.
    + intros Hin. apply in_map_iff in Hin as (c & Heq & Hc).
      destruct (call_fresh _ _ _ _ HI c f Hc Hf (eq_sym Heq)) as (_ & H2 & _).
      congruence.
    + now apply in_map.
Qed.

Lemma Inv_handleRetrySummarization_settled (n : nat) (c : RetryCall)
    (r : Fetched data.t) (st : State) :
  Inv st -> nth_error (retry_calls st) n = Some c ->
  Inv (handleRetrySummarization_settled c r
         (set_retry_calls (remove_nth n (retry_calls st)) st)).
Proof.
  intros HI Hn.
  assert (Hrm : Inv (set_retry_calls (remove_nth n (retry_calls st)) st)).
  { unfold Inv. simpl. eapply inv_retries; [exact HI |].
    intros r' sel Hr' Hsel. apply In_remove_nth in Hr'.
    split; [eapply retry_done | eapply retry_listed]; eauto. }
  unfold handleRetrySummarization_settled.
  destruct r as [err | status d]; [same_components |].
  destruct (negb (JS.ok status)); [same_components |].
  match goal with
  | |- Inv (setIsRetrying false (fetchUserCredits ?u ?s)) =>
      assert (HI' : Inv s)
  end.
  { unfold Inv. simpl. eapply inv_retry_ok; eauto.
    - intros f. destruct (retry_selectedFileId c) as [sel |]; [| reflexivity].
      destruct (String.eqb (id f) sel); reflexivity.
    - intros f. destruct (retry_selectedFileId c) as [sel |]; [| now left].
      destruct (String.eqb (id f) sel) eqn:Heq; [| now left].
      apply String.eqb_eq in Heq. subst sel. right. split; [reflexivity |].
      unfold payload_count. simpl. lia. }
  unfold fetchUserCredits. destruct (retry_user c); same_components.
Qed.

Lemma Inv_init (u : option User.t) : Inv (init u).
Proof.
  unfold init, fetchUserCredits. destruct u; unfold Inv; simpl;
    (constructor; simpl; try constructor; intros; contradiction).
Qed.

Lemma Inv_handle (e : Event) (st : State) :
  Inv st -> enabled e st = true -> Inv (handle e st).
Proof.
  intros HI He. destruct e as [file uuid | file uuid | | | n duration uuid
                              | n uuid | n r | n | | n r | b]; simpl in *.
  - apply enabled_fresh in He.
    destruct (user st) eqn:Hu; [| assumption].
    unfold handleFileInput. destruct (isProcessing st); [assumption |].
    apply Inv_check_and_process; auto. congruence.
  - apply enabled_fresh in He.
    destruct (user st) eqn:Hu; [| assumption].
    unfold handleDrop. destruct (isProcessing (setIsDragging false st));
      [same_components |].
    apply Inv_check_and_process; [same_components | exact He | simpl; congruence].
  - destruct (user st); [| assumption]. unfold handleDragOver.
    destruct (negb (isProcessing st)); [same_components | assumption].
  - destruct (user st); [same_components | assumption].
  - apply enabled_fresh in He.
    destruct (nth_error (probes st) n) as [p |] eqn:Hn; [| assumption].
    apply Inv_after_validateDuration; auto.
    + unfold Inv. simpl. eapply inv_probes; [exact HI |].
      intros q Hq. apply In_remove_nth in Hq.
      now apply (probe_signed_in _ _ _ _ HI).
    + apply (probe_signed_in _ _ _ _ HI). eapply nth_error_In; eauto.
  - apply enabled_fresh in He.
    destruct (nth_error (probes st) n) as [p |] eqn:Hn; [| assumption].
    apply (Inv_after_validateDuration None); auto.
    + unfold Inv. simpl. eapply inv_probes; [exact HI |].
      intros q Hq. apply In_remove_nth in Hq.
      now apply (probe_signed_in _ _ _ _ HI).
    + apply (probe_signed_in _ _ _ _ HI). eapply nth_error_In; eauto.
  - destruct (nth_error (process_calls st) n) as [c |] eqn:Hn; [| assumption].
    now apply Inv_processFile_settled.
  - destruct (user st); [| assumption].
    destruct (nth_error (files st) n); [same_components | assumption].
  - destruct (user st); [| assumption].
    destruct (isRetrying st); [assumption |].
    now apply Inv_handleRetrySummarization.
  - destruct (nth_error (retry_calls st) n) as [c |] eqn:Hn; [| assumption].
    now apply Inv_handleRetrySummarization_settled.
  - destruct (balance_calls st); [assumption |].
    destruct b; same_components.
Qed.

(** Induction over the runs of the page. *)
Lemma run_invariant (P : State -> Prop) :
  (forall e st, P st -> enabled e st = true -> P (handle e st)) ->
  forall events st st', P st -> run events st = Some st' -> P st'.
Proof.
  intros Hstep events. induction events as [| e events IH]; intros st st' HP Hrun;
    simpl in Hrun.
  - injection Hrun as <-. exact HP.
  - destruct (enabled e st) eqn:He; [| discriminate]. eauto.
Qed.

Lemma reachable_Inv (st : State) : reachable st -> Inv st.
Proof.
  intros (u & events & Hrun).
  eapply (run_invariant Inv Inv_handle); [apply Inv_init | exact Hrun].
Qed.

End ReachProofs.

(** * The dashboard: processing and retry *)
Module ProcessingProofs.
Import Dashboard Scenario Invariant ReachProofs.
Local Open Scope list_scope.

Lemma reachable_state_after (events : list Event) :
  run events (init (Some user1)) <> None -> reachable (state_after events).
Proof.
  intros H. exists (Some user1), events. unfold state_after.
  destruct (run events (init (Some user1))); congruence.
Qed.

(** C7. In every reachable state each item of the list has at most one
    of [result], [partialResult] and [error] defined. *)
Theorem payload_fields_exclusive (st : State) (f : FileItem) :
  reachable st -> In f (files st) -> (payload_count f <= 1)%nat.
Proof.
  intros Hreach Hf. apply reachable_Inv in Hreach.
  exact (one_payload _ _ _ _ Hreach f Hf).
Qed.

Lemma payload_fields_exclusive_witness :
  exists f, In f (files (state_after upload_a_retrying)) /\
            partialResult f = Some partial_body /\
            (payload_count f <= 1)%nat.
Proof.
  eexists. split; [left; reflexivity |]. split; [reflexivity |].
  apply (payload_fields_exclusive (state_after upload_a_retrying)).
  - exists (Some user1), upload_a_retrying. vm_compute. reflexivity.
  - left. reflexivity.
Defined.

(** C4. When the answer to a pending [/api/process] call is ok, the
    item of that call exists and goes to [completed] with the response
    body as its [result] (and nothing else), and exactly one request is
    sent because of it: the [GET] of [/api/credits/balance?user_id=]
    followed by the id of the signed-in user, which is the refresh. *)
Theorem success_completes_and_refreshes_once
    (st : State) (n : nat) (c : ProcessCall) (code : Z) (d : data.t) :
  reachable st ->
  nth_error (process_calls st) n = Some c ->
  JS.ok code = true ->
  let st' := handle (process_settled n (Response code d)) st in
  (exists f, In f (files st') /\ id f = call_fileId c) /\
  (forall f, In f (files st') -> id f = call_fileId c ->
     status f = completed /\ result f = Some d /\
     partialResult f = None /\ error f = None) /\
  (exists u, call_user c = Some u /\
             requests st' =
               requests st ++
                 [{| method := "GET";
                     path := ("/api/credits/balance?user_id=" ++ User.id u)%string;
                     query := []; body := NoBody |}]) /\
  balance_calls st' = S (balance_calls st).
Proof.
  intros Hreach Hn Hok. apply reachable_Inv in Hreach.
  assert (Hc : In c (process_calls st)) by (eapply nth_error_In; eauto).
  destruct (call_user c) as [u |] eqn:Hu;
    [| exfalso; exact (call_signed_in _ _ _ _ Hreach c Hc Hu)].
  cbv zeta. cbn [handle]. rewrite Hn.
  unfold processFile_settled. rewrite Hok, Hu. cbn [negb].
  unfold fetchUserCredits. simpl.
  repeat split.
  - pose proof (call_listed _ _ _ _ Hreach c Hc) as Hin.
    apply in_map_iff in Hin as (f & Hid & Hf).
    eexists. split; [apply in_map; exact Hf |].
    simpl. apply String.eqb_eq in Hid as Heq. rewrite Heq. exact Hid.
  - apply in_map_iff in H as (f0 & <- & Hf0).
    destruct (String.eqb (id f0) (call_fileId c)) eqn:Heq; [reflexivity |].
    apply String.eqb_neq in Heq. contradiction.
  - apply in_map_iff in H as (f0 & <- & Hf0).
    destruct (String.eqb (id f0) (call_fileId c)) eqn:Heq; [reflexivity |].
    apply String.eqb_neq in Heq. contradiction.
  - apply in_map_iff in H as (f0 & <- & Hf0).
    destruct (String.eqb (id f0) (call_fileId c)) eqn:Heq.
    + apply String.eqb_eq in Heq.
      now destruct (call_fresh _ _ _ _ Hreach c f0 Hc Hf0 Heq) as (_ & ? & _).
    + apply String.eqb_neq in Heq. contradiction.
  - apply in_map_iff in H as (f0 & <- & Hf0).
    destruct (String.eqb (id f0) (call_fileId c)) eqn:Heq.
    + apply String.eqb_eq in Heq.
      now destruct (call_fresh _ _ _ _ Hreach c f0 Hc Hf0 Heq) as (_ & _ & ?).
    + apply String.eqb_neq in Heq. contradiction.
  - exists u. split; reflexivity.
Qed.

Lemma success_completes_and_refreshes_once_witness :
  let c := {| call_fileId := "id-a"; call_user := Some user1 |} in
  let st' := handle (process_settled 0 (Response 200 success_body))
               (state_after upload_a) in
  (exists f, In f (files st') /\ id f = call_fileId c) /\
  (forall f, In f (files st') -> id f = call_fileId c ->
     status f = completed /\ result f = Some success_body /\
     partialResult f = None /\ error f = None) /\
  (exists u, call_user c = Some u /\
             requests st' =
               requests (state_after upload_a) ++
                 [{| method := "GET";
                     path := ("/api/credits/balance?user_id=" ++ User.id u)%string;
                     query := []; body := NoBody |}]) /\
  balance_calls st' = S (balance_calls (state_after upload_a)).
Proof.
  apply (success_completes_and_refreshes_once (state_after upload_a) 0
           {| call_fileId := "id-a"; call_user := Some user1 |} 200 success_body).
  - exists (Some user1), upload_a. vm_compute. reflexivity.
  - vm_compute. reflexivity.
  - reflexivity.
Defined.

(** C6: the claim fails on the code.  The guard [if (isProcessing)
    return] is evaluated before [await validateDuration(file)], and the
    item only becomes [processing] after it: two files chosen while the
    first is still loading its metadata both reach [processFile]. *)
Theorem two_items_processing :
  reachable (state_after two_quick_uploads) /\
  processing_count (state_after two_quick_uploads) = 2%nat /\
  map (fun f => (id f, status f)) (files (state_after two_quick_uploads)) =
    [("id-b", processing); ("id-a", processing)].
Proof.
  split; [| split; vm_compute; reflexivity].
  exists (Some user1), two_quick_uploads. vm_compute. reflexivity.
Qed.

(** *** Partial results and their retry *)

Lemma truthy_nonempty (key : string) : key <> "" -> JS.truthy (Some key) = true.
Proof.
  intros H. unfold JS.truthy. apply negb_true_iff. now apply String.eqb_neq.
Qed.

(** What a click on the retry button does when the selected item holds
    a partial result with a non-empty cache key. *)
Lemma handleRetrySummarization_partial
    (st : State) (f : FileItem) (d : data.t) (key : string) :
  selectedFile st = Some f -> partialResult f = Some d ->
  data.cache_key d = Some key -> key <> "" ->
  handleRetrySummarization st =
    set_retry_calls
      (retry_calls st ++
         [{| retry_selectedFileId := selectedFileId st; retry_user := user st |}])
      (fetch (retry_request key) (setIsRetrying true st)).
Proof.
  intros Hsel Hpartial Hkey Hne. unfold handleRetrySummarization.
  rewrite Hsel, Hpartial, Hkey, (truthy_nonempty key Hne). reflexivity.
Qed.

(** C1. (1) A non-ok [/api/process] response whose body has status
    [partial] is stored whole as the [partialResult] of the item of that
    call, so its transcript and cache key are the ones of the response.
    (2) A retry of the selected item that holds it posts to
    [/api/retry-summary] the JSON body with the single field [cache_key]
    set to the stored key; no other request is made by a retry.  (3) If
    the retry response is ok, the item's [result] is the body of that
    response, so its transcript and summary are those of the response. *)
Theorem partial_result_retry
    (st1 : State) (c : ProcessCall) (code1 : Z) (d : data.t)
    (st2 : State) (f : FileItem) (key : string)
    (st3 : State) (rc : RetryCall) (code3 : Z) (d3 : data.t) :
  JS.ok code1 = false -> data.status d = Some "partial" ->
  selectedFile st2 = Some f -> partialResult f = Some d ->
  data.cache_key d = Some key -> key <> "" ->
  retry_selectedFileId rc = Some (id f) -> JS.ok code3 = true ->
  (let st1' := processFile_settled c (Response code1 d) st1 in
   map id (files st1') = map id (files st1) /\
   forall f', In f' (files st1') -> id f' = call_fileId c ->
     status f' = error_ /\
     partialResult f' = Some d /\
     option_map data.transcript (partialResult f') = Some (data.transcript d) /\
     option_map data.cache_key (partialResult f') = Some (data.cache_key d)) /\
  (let st2' := handleRetrySummarization st2 in
   requests st2' =
     requests st2 ++
       [{| method := "POST"; path := "/api/retry-summary"; query := [];
           body := JsonBody [("cache_key", key)] |}] /\
   retry_calls st2' =
     retry_calls st2 ++
       [{| retry_selectedFileId := Some (id f); retry_user := user st2 |}]) /\
  (let st3' := handleRetrySummarization_settled rc (Response code3 d3) st3 in
   map id (files st3') = map id (files st3) /\
   forall f', In f' (files st3') -> id f' = id f ->
     status f' = completed /\
     partialResult f' = None /\
     result f' = Some d3 /\
     option_map data.transcript (result f') = Some (data.transcript d3) /\
     option_map data.summary (result f') = Some (data.summary d3)).
Proof.
  intros Hko Hpartial Hsel Hstored Hkey Hne Hrc Hok.
  split; [| split]; cbv zeta.
  - unfold processFile_settled. rewrite Hko, Hpartial. simpl.
    split.
    + rewrite map_map. apply map_ext. intros x.
      destruct (String.eqb (id x) (call_fileId c)); reflexivity.
    + intros f' Hf' Hid. apply in_map_iff in Hf' as (f0 & <- & Hf0).
      destruct (String.eqb (id f0) (call_fileId c)) eqn:Heq.
      * repeat split.
      * apply String.eqb_neq in Heq. contradiction.
  - rewrite (handleRetrySummarization_partial st2 f d key) by assumption.
    apply selectedFile_In in Hsel as [-> _]. split; reflexivity.
  - unfold handleRetrySummarization_settled. rewrite Hok, Hrc. cbn [negb].
    assert (Hfiles : forall u s, files (setIsRetrying false (fetchUserCredits u s)) =
                                 files s).
    { intros [u |] s; reflexivity. }
    rewrite Hfiles. simpl. split.
    + rewrite map_map. apply map_ext. intros x.
      destruct (String.eqb (id x) (id f)); reflexivity.
    + intros f' Hf' Hid. apply in_map_iff in Hf' as (f0 & <- & Hf0).
      destruct (String.eqb (id f0) (id f)) eqn:Heq.
      * repeat split.
      * apply String.eqb_neq in Heq. contradiction.
Qed.

Lemma partial_result_retry_witness :
  requests (handleRetrySummarization (state_after upload_a_partial)) =
    requests (state_after upload_a_partial) ++
      [{| method := "POST"; path := "/api/retry-summary"; query := [];
          body := JsonBody [("cache_key", "abc123")] |}].
Proof.
  refine (proj1 (proj1 (proj2
    (partial_result_retry
       (state_after upload_a) {| call_fileId := "id-a"; call_user := Some user1 |}
       500 partial_body
       (state_after upload_a_partial)
       {| id := "id-a"; name := "a.mp3"; status := error_;
          progress := Some 100; result := None;
          partialResult := Some partial_body; error := None |}
       "abc123"
       (state_after upload_a_retrying)
       {| retry_selectedFileId := Some "id-a"; retry_user := Some user1 |}
       200 success_body
       eq_refl eq_refl _ eq_refl eq_refl _ eq_refl eq_refl)))).
  - vm_compute. reflexivity.
  - discriminate.
Defined.

(** C5, as stated, fails: after a retry that the backend refuses with
    the message [quota exceeded], the item still holds the partial result
    with the error of the first attempt, [LLM timeout]; its own [error]
    is undefined.  The new message was only shown in an alert. *)
Lemma failed_retry_keeps_old_message :
  let st := retry_round (Response 500 quota_body) (state_after upload_a_partial) in
  data.error quota_body = Some "quota exceeded" /\
  map (fun f => (id f, option_map data.error (partialResult f), error f)) (files st) =
    [("id-a", Some (Some "LLM timeout"), None)] /\
  alerts st = [Text "quota exceeded"].
Proof.
  vm_compute. repeat split.
Qed.

Lemma retry_round_failure
    (st : State) (f : FileItem) (d : data.t) (key : string) (r : Fetched data.t) :
  user st <> None -> isRetrying st = false ->
  selectedFile st = Some f -> partialResult f = Some d ->
  data.cache_key d = Some key -> key <> "" ->
  is_failure r = true ->
  retry_round r st =
    setIsRetrying false (alert (failure_text r) (fetch (retry_request key) st)).
Proof.
  intros Hu Hidle Hsel Hpartial Hkey Hne Hfail.
  unfold retry_round. cbn [handle].
  destruct (user st) as [u |] eqn:Huser; [clear Hu | contradiction].
  rewrite Hidle, (handleRetrySummarization_partial st f d key) by assumption.
  cbn [retry_calls set_retry_calls].
  rewrite nth_error_last, remove_nth_last.
  unfold handleRetrySummarization_settled.
  destruct r as [err | code body]; simpl in Hfail.
  - reflexivity.
  - rewrite Hfail. reflexivity.
Qed.

(** C5, amended. Every failed retry of a partial result (response not
    ok, or a thrown error) leaves the list of items as it was: the item
    keeps its partial result with the transcript, the cache key and the
    error message of the first attempt; the message of the failure is
    shown in an alert and stored nowhere.  The retry button is enabled
    again afterwards, and any number of failed retries in a row each post
    the same request: no counter limits them. *)
Theorem failed_retries_keep_partial
    (rs : list (Fetched data.t)) (st : State)
    (f : FileItem) (d : data.t) (key : string) :
  user st <> None -> isRetrying st = false ->
  selectedFile st = Some f -> partialResult f = Some d ->
  data.cache_key d = Some key -> key <> "" ->
  forallb is_failure rs = true ->
  let st' := retry_rounds rs st in
  files st' = files st /\
  selectedFile st' = Some f /\
  isRetrying st' = false /\
  requests st' = requests st ++ repeat (retry_request key) (List.length rs) /\
  alerts st' = alerts st ++ map failure_text rs.
Proof.
  revert st. induction rs as [| r rs IH]; intros st Hu Hidle Hsel Hpartial Hkey Hne Hall.
  - simpl. rewrite !app_nil_r. auto.
  - simpl in Hall. apply andb_true_iff in Hall as [Hr Hrs].
    cbn [retry_rounds]. cbv zeta.
    rewrite (retry_round_failure st f d key r) by assumption.
    destruct (IH (setIsRetrying false
                    (alert (failure_text r) (fetch (retry_request key) st))))
      as (Hfiles & Hsel' & Hidle' & Hreq & Halerts); auto.
    repeat split; auto.
    + rewrite Hreq. simpl. now rewrite <- app_assoc.
    + rewrite Halerts. simpl. now rewrite <- app_assoc.
Qed.

Lemma failed_retries_keep_partial_witness :
  let st' := retry_rounds [Response 500 quota_body; Threw (JS.Error "Failed to fetch")]
               (state_after upload_a_partial) in
  files st' = files (state_after upload_a_partial) /\
  alerts st' = [Text "quota exceeded"; Text "Failed to fetch"].
Proof.
  destruct (failed_retries_keep_partial
              [Response 500 quota_body; Threw (JS.Error "Failed to fetch")]
              (state_after upload_a_partial)
              {| id := "id-a"; name := "a.mp3"; status := error_;
                 progress := Some 100; result := None;
                 partialResult := Some partial_body; error := None |}
              partial_body "abc123")
    as (Hfiles & _ & _ & _ & Halerts);
    try (vm_compute; reflexivity); try discriminate.
  split; [exact Hfiles | exact Halerts].
Defined.

End ProcessingProofs.

(** * The dashboard: status, pending calls and selection *)
Module StatusProofs.
Import Dashboard Scenario Invariant DashboardExtra ReachProofs.
Local Open Scope list_scope.

Lemma In_map_remove_nth_other {A B} (h : A -> B) (n : nat) (l : list A)
    (c : A) (x : B) :
  nth_error l n = Some c -> In x (map h l) -> x <> h c ->
  In x (map h (remove_nth n l)).
Proof.
  revert n. induction l as [| a l IH]; intros [| n] Hn Hin Hne; simpl in *;
    try discriminate.
  - injection Hn as ->. destruct Hin as [Heq | Hin]; [congruence | exact Hin].
  - destruct Hin as [Heq | Hin]; [left; exact Heq | right; eauto].
Qed.

Lemma or_default_defined (a : option string) (s : string) :
  JS.or a (Some s) <> None.
Proof.
  unfold JS.or. destruct a as [v |]; simpl; [| discriminate].
  destruct (negb (String.eqb v "")); discriminate.
Qed.

(** *** How each event changes the items and the pending calls *)

Lemma processFile_step (st0 st : State) (u : option User.t) (uuid : string)
    (file : File.t) :
  files st = files st0 -> process_calls st = process_calls st0 ->
  fresh uuid st ->
  files_step st0 (processFile u uuid file st).
Proof.
  intros Hf Hc Hfresh.
  apply (step_processFile st0 _
           (spread (new_item uuid file)
              {| set_status := None; set_progress := Some (Some 10);
                 set_result := None; set_partialResult := None;
                 set_error := None |}) u).
  - simpl. rewrite <- Hf. exact Hfresh.
  - reflexivity.
  - repeat split.
  - rewrite processFile_files by assumption. now rewrite Hf.
  - simpl. now rewrite Hc.
Qed.

Lemma after_validateDuration_step (st0 st : State) (e : option AlertText)
    (u : option User.t) (uuid : string) (file : File.t) :
  files st = files st0 -> process_calls st = process_calls st0 ->
  fresh uuid st ->
  files_step st0 (after_validateDuration e u uuid file st).
Proof.
  intros Hf Hc Hfresh. destruct e; simpl.
  - now apply step_same.
  - now apply processFile_step.
Qed.

Lemma check_and_process_step (st0 st : State) (file : option File.t)
    (uuid : string) :
  files st = files st0 -> process_calls st = process_calls st0 ->
  fresh uuid st ->
  files_step st0 (check_and_process file uuid st).
Proof.
  intros Hf Hc Hfresh. unfold check_and_process.
  destruct (negb (checkCredits st)); [now apply step_same |].
  destruct file as [file |]; [| now apply step_same].
  destruct (validateFile file); [now apply step_same |].
  destruct (validateDuration file); [now apply step_same |].
  now apply after_validateDuration_step.
Qed.

Lemma processFile_settled_step (st : State) (n : nat) (c : ProcessCall)
    (r : Fetched data.t) :
  nth_error (process_calls st) n = Some c ->
  files_step st
    (processFile_settled c r
       (set_process_calls (remove_nth n (process_calls st)) st)).
Proof.
  intros Hn.
  assert (Hupd : forall u st',
            files st' = map (fun f => if String.eqb (id f) (call_fileId c)
                                      then spread f u else f) (files st) ->
            process_calls st' = remove_nth n (process_calls st) ->
            (forall f, no_payload f ->
               status (spread f u) <> processing /\ agrees (spread f u)) ->
            files_step st st').
  { intros u st' Hf Hc Hu.
    apply (step_settled st st' n c
             (fun f => if String.eqb (id f) (call_fileId c)
                       then spread f u else f));
      auto using touches_only_updateFile.
    intros f Hid Hnone. cbv beta. apply String.eqb_eq in Hid. rewrite Hid. auto. }
  unfold processFile_settled.
  destruct r as [err | code d].
  - eapply Hupd; try reflexivity.
    intros f (H1 & H2 & H3). unfold agrees. simpl.
    rewrite H1, H2. repeat split; try discriminate. right. split; [reflexivity | discriminate].
  - destruct (negb (JS.ok code)).
    + destruct (match data.status d with
                | Some s => String.eqb s "partial"
                | None => false
                end).
      * eapply Hupd; try reflexivity.
        intros f (H1 & H2 & H3). unfold agrees. simpl.
        rewrite H1, H3. repeat split; try discriminate.
        left. split; [discriminate | reflexivity].
      * eapply Hupd; try reflexivity.
        intros f (H1 & H2 & H3). unfold agrees. simpl.
        rewrite H1, H2. repeat split; try discriminate.
        right. split; [reflexivity | apply or_default_defined].
    + eapply Hupd.
      * unfold fetchUserCredits. destruct (call_user c); reflexivity.
      * unfold fetchUserCredits. destruct (call_user c); reflexivity.
      * intros f (H1 & H2 & H3). unfold agrees. simpl.
        rewrite H2, H3. repeat split; discriminate.
Qed.

Lemma handleRetrySummarization_settled_step (st : State) (n : nat)
    (c : RetryCall) (r : Fetched data.t) :
  nth_error (retry_calls st) n = Some c ->
  files_step st
    (handleRetrySummarization_settled c r
       (set_retry_calls (remove_nth n (retry_calls st)) st)).
Proof.
  intros Hn. unfold handleRetrySummarization_settled.
  destruct r as [err | code d]; [now apply step_same |].
  destruct (negb (JS.ok code)); [now apply step_same |].
  eapply (step_retried st _ n c); [exact Hn | | | |].
  3: { unfold fetchUserCredits. destruct (retry_user c); reflexivity. }
  3: { unfold fetchUserCredits. destruct (retry_user c); reflexivity. }
  - intros f. destruct (retry_selectedFileId c) as [sel |]; [| reflexivity].
    destruct (String.eqb (id f) sel); reflexivity.
  - intros f. destruct (retry_selectedFileId c) as [sel |]; [| now left].
    destruct (String.eqb (id f) sel) eqn:Heq; [| now left].
    apply String.eqb_eq in Heq. subst sel. right.
    unfold agrees. simpl. repeat split. discriminate.
Qed.

Lemma handle_files_step (e : Event) (st : State) :
  enabled e st = true -> files_step st (handle e st).
Proof.
  intros He. destruct e as [file uuid | file uuid | | | n duration uuid
                           | n uuid | n r | n | | n r | b]; simpl in *.
  - apply enabled_fresh in He.
    destruct (user st); [| now apply step_same].
    unfold handleFileInput. destruct (isProcessing st); [now apply step_same |].
    now apply check_and_process_step.
  - apply enabled_fresh in He.
    destruct (user st); [| now apply step_same].
    unfold handleDrop. destruct (isProcessing (setIsDragging false st));
      [now apply step_same |].
    now apply check_and_process_step.
  - destruct (user st); [| now apply step_same]. unfold handleDragOver.
    destruct (negb (isProcessing st)); now apply step_same.
  - destruct (user st); now apply step_same.
  - apply enabled_fresh in He.
    destruct (nth_error (probes st) n) as [p |]; [| now apply step_same].
    now apply after_validateDuration_step.
  - apply enabled_fresh in He.
    destruct (nth_error (probes st) n) as [p |]; [| now apply step_same].
    now apply (after_validateDuration_step st _ None).
  - destruct (nth_error (process_calls st) n) as [c |] eqn:Hn;
      [| now apply step_same].
    now apply processFile_settled_step.
  - destruct (user st); [| now apply step_same].
    destruct (nth_error (files st) n); now apply step_same.
  - destruct (user st); [| now apply step_same].
    destruct (isRetrying st); [now apply step_same |].
    unfold handleRetrySummarization.
    destruct (selectedFile st) as [f |]; [| now apply step_same].
    destruct (partialResult f) as [d |]; [| now apply step_same].
    destruct (data.cache_key d) as [key |]; [| now apply step_same].
    destruct (JS.truthy (Some key)); now apply step_same.
  - destruct (nth_error (retry_calls st) n) as [c |] eqn:Hn;
      [| now apply step_same].
    now apply handleRetrySummarization_settled_step.
  - destruct (balance_calls st); [now apply step_same |].
    destruct b; now apply step_same.
Qed.

(** *** The second invariant *)

Lemma inv2_step (st st' : State) :
  Inv st -> inv2 (files st) (process_calls st) -> files_step st st' ->
  inv2 (files st') (process_calls st').
Proof.
  intros HI [Hu Hcp Hpc Hag] Hstep.
  destruct Hstep as [Hf Hc | item u Hfresh Hst Hnone Hf Hc
                     | n c g Hn Hg Hsettle Hf Hc | n r g Hn Hid Hg Hf Hc];
    rewrite Hf, Hc.
  - constructor; auto.
  - constructor.
    + simpl. constructor; auto.
    + intros c f Hin [<- | Hfin] Heq; [exact Hst |].
      apply in_app_iff in Hin as [Hin | [<- | []]]; [eauto |].
      simpl in Heq. exfalso. apply Hfresh. rewrite <- Heq. now apply in_map.
    + intros f [<- | Hfin] Hproc; rewrite map_app, in_app_iff.
      * right. simpl. auto.
      * left. auto.
    + intros f [<- | Hfin]; [| auto].
      unfold agrees. now rewrite Hst.
  - pose proof (touches_only_ids _ _ (files st) Hg) as Hids.
    destruct Hg as [Hid Hoff].
    assert (Hc0 : In c (process_calls st)) by (eapply nth_error_In; eauto).
    assert (Hother : forall c', In c' (remove_nth n (process_calls st)) ->
                       call_fileId c' <> call_fileId c).
    { intros c' Hc' Heq.
      apply (removed_not_In n (map call_fileId (process_calls st)) (call_fileId c)).
      - exact (call_once _ _ _ _ HI).
      - now apply map_nth_error.
      - rewrite <- map_remove_nth, <- Heq. now apply in_map. }
    constructor.
    + now rewrite Hids.
    + intros c' f' Hc' Hf' Heq.
      apply in_map_iff in Hf' as (f & <- & Hfin). rewrite Hid in Heq.
      assert (Hne : id f <> call_fileId c) by (rewrite Heq; auto).
      rewrite (Hoff f Hne). apply In_remove_nth in Hc'. eauto.
    + intros f' Hf' Hproc.
      apply in_map_iff in Hf' as (f & <- & Hfin). rewrite Hid.
      destruct (string_dec (id f) (call_fileId c)) as [Heq | Hne].
      * exfalso.
        destruct (Hsettle f Heq (call_fresh _ _ _ _ HI c f Hc0 Hfin Heq)) as [Hnp _].
        contradiction.
      * rewrite (Hoff f Hne) in Hproc.
        eapply In_map_remove_nth_other; eauto.
    + intros f' Hf'. apply in_map_iff in Hf' as (f & <- & Hfin).
      destruct (string_dec (id f) (call_fileId c)) as [Heq | Hne].
      * now destruct (Hsettle f Heq (call_fresh _ _ _ _ HI c f Hc0 Hfin Heq)).
      * rewrite (Hoff f Hne). auto.
  - assert (Hids : map id (map g (files st)) = map id (files st)).
    { rewrite map_map. now apply map_ext. }
    assert (Hr : In r (retry_calls st)) by (eapply nth_error_In; eauto).
    constructor.
    + now rewrite Hids.
    + intros c f' Hcin Hf' Heq.
      apply in_map_iff in Hf' as (f & <- & Hfin). rewrite Hid in Heq.
      destruct (Hg f) as [-> | (Hsel & _)]; [eauto |].
      exfalso. apply (retry_done _ _ _ _ HI r (id f) Hr Hsel).
      rewrite Heq. now apply in_map.
    + intros f' Hf' Hproc.
      apply in_map_iff in Hf' as (f & <- & Hfin). rewrite Hid.
      destruct (Hg f) as [Heq | (_ & Hdone & _)].
      * rewrite Heq in Hproc. auto.
      * rewrite Hdone in Hproc. discriminate.
    + intros f' Hf'. apply in_map_iff in Hf' as (f & <- & Hfin).
      destruct (Hg f) as [-> | (_ & _ & Hagree)]; auto.
Qed.

Lemma Inv2_init (u : option User.t) : Inv2 (init u).
Proof.
  split; [apply Inv_init |].
  unfold init, fetchUserCredits. destruct u; simpl;
    (constructor; simpl; try constructor; intros; contradiction).
Qed.

Lemma Inv2_handle (e : Event) (st : State) :
  Inv2 st -> enabled e st = true -> Inv2 (handle e st).
Proof.
  intros [HI H2] He. split.
  - now apply Inv_handle.
  - eapply inv2_step; eauto using handle_files_step.
Qed.

Lemma reachable_Inv2 (st : State) : reachable st -> Inv2 st.
Proof.
  intros (u & events & Hrun).
  eapply (run_invariant Inv2 Inv2_handle); [apply Inv2_init | exact Hrun].
Qed.

(** X1. In every reachable state the status of an item and its payload
    agree: a [processing] item has no payload, a [completed] item has a
    [result] and nothing else, and an [error] item has no [result] and
    exactly one of [partialResult] and [error]. *)
Theorem status_matches_payload (st : State) (f : FileItem) :
  reachable st -> In f (files st) -> agrees f.
Proof.
  intros Hreach Hf. apply reachable_Inv2 in Hreach as [_ H2].
  exact (status_agrees _ _ H2 f Hf).
Qed.

Lemma status_matches_payload_witness :
  exists f, In f (files (state_after upload_a_partial)) /\
            status f = error_ /\ agrees f.
Proof.
  eexists. split; [left; reflexivity |]. split; [reflexivity |].
  apply (status_matches_payload (state_after upload_a_partial)).
  - exists (Some user1), upload_a_partial. vm_compute. reflexivity.
  - left. reflexivity.
Defined.

(** X2. In every reachable state some item is [processing] (the upload
    controls are disabled) exactly when an [/api/process] call is still
    waiting for its answer: the controls never stay disabled after the
    last call has settled, and are never enabled while one is pending. *)
Theorem processing_iff_call_pending (st : State) :
  reachable st -> (isProcessing st = true <-> process_calls st <> []).
Proof.
  intros Hreach. apply reachable_Inv2 in Hreach as [HI H2]. split.
  - intros Hp. unfold isProcessing in Hp.
    apply existsb_exists in Hp as (f & Hf & Hs).
    assert (Hst : status f = processing) by (destruct (status f); auto; discriminate).
    pose proof (processing_called _ _ H2 f Hf Hst) as Hin.
    intros Hnil. rewrite Hnil in Hin. exact Hin.
  - intros Hne. destruct (process_calls st) as [| c cs] eqn:Hcs; [congruence |].
    assert (Hc : In c (process_calls st)) by (rewrite Hcs; left; reflexivity).
    pose proof (call_listed _ _ _ _ HI c Hc) as Hin.
    apply in_map_iff in Hin as (f & Hid & Hf).
    unfold isProcessing. apply existsb_exists. exists f. split; [exact Hf |].
    pose proof Hc as Hc'. rewrite Hcs in Hc'.
    now rewrite (call_processing _ _ H2 c f Hc' Hf Hid).
Qed.

Lemma processing_iff_call_pending_witness :
  isProcessing (state_after upload_a) = true <->
  process_calls (state_after upload_a) <> [].
Proof.
  apply (processing_iff_call_pending (state_after upload_a)).
  exists (Some user1), upload_a. vm_compute. reflexivity.
Defined.

Lemma find_by_unique_id (l : list FileItem) (f : FileItem) :
  NoDup (map id l) -> In f l ->
  find (fun x => String.eqb (id x) (id f)) l = Some f.
Proof.
  induction l as [| a l IH]; intros Hnd Hin; [contradiction |].
  simpl in *. inversion Hnd as [| ? ? Ha Hl]; subst.
  destruct Hin as [-> | Hin].
  - now rewrite String.eqb_refl.
  - destruct (String.eqb (id a) (id f)) eqn:Heq; [| auto].
    apply String.eqb_eq in Heq. exfalso. apply Ha. rewrite Heq. now apply in_map.
Qed.

(** X3. Clicking an item of the list is a local change of view: in
    every reachable state, for a signed-in user, the clicked item becomes
    the selected file, and nothing else of the state changes (no request,
    no alert, the same items). *)
Theorem select_is_local (st : State) (n : nat) (f : FileItem) :
  reachable st -> user st <> None -> nth_error (files st) n = Some f ->
  let st' := handle (onClick_file n) st in
  selectedFile st' = Some f /\ same_but_selection st st'.
Proof.
  intros Hreach Hu Hn. apply reachable_Inv2 in Hreach as [_ H2].
  cbv zeta. cbn [handle]. destruct (user st); [| contradiction]. rewrite Hn.
  split; [| repeat split].
  unfold selectedFile. simpl.
  apply find_by_unique_id; [exact (ids_unique _ _ H2) |].
  eapply nth_error_In; eauto.
Qed.

Lemma select_is_local_witness :
  selectedFile (handle (onClick_file 1) (state_after two_quick_uploads)) =
    nth_error (files (state_after two_quick_uploads)) 1.
Proof.
  refine (proj1 (select_is_local (state_after two_quick_uploads) 1 _ _ _ _)).
  - exists (Some user1), two_quick_uploads. vm_compute. reflexivity.
  - discriminate.
  - vm_compute. reflexivity.
Defined.

(** *** The retry button *)

Lemma retry_fields_check_and_process (file : option File.t) (uuid : string)
    (st : State) :
  isRetrying (check_and_process file uuid st) = isRetrying st /\
  retry_calls (check_and_process file uuid st) = retry_calls st.
Proof.
  unfold check_and_process.
  destruct (negb (checkCredits st)); [split; reflexivity |].
  destruct file as [file |]; [| split; reflexivity].
  destruct (validateFile file); [split; reflexivity |].
  destruct (validateDuration file); split; reflexivity.
Qed.

Lemma retry_fields_after_validateDuration (e : option AlertText)
    (u : option User.t) (uuid : string) (file : File.t) (st : State) :
  isRetrying (after_validateDuration e u uuid file st) = isRetrying st /\
  retry_calls (after_validateDuration e u uuid file st) = retry_calls st.
Proof.
  destruct e; split; reflexivity.
Qed.

Lemma retry_fields_processFile_settled (c : ProcessCall) (r : Fetched data.t)
    (st : State) :
  isRetrying (processFile_settled c r st) = isRetrying st /\
  retry_calls (processFile_settled c r st) = retry_calls st.
Proof.
  unfold processFile_settled, fetchUserCredits.
  destruct r as [err | code d]; [split; reflexivity |].
  destruct (negb (JS.ok code)).
  - destruct (match data.status d with
              | Some s => String.eqb s "partial"
              | None => false
              end); split; reflexivity.
  - destruct (call_user c); split; reflexivity.
Qed.

Lemma retry_in_step_frame (st st' : State) :
  isRetrying st' = isRetrying st /\ retry_calls st' = retry_calls st ->
  retry_in_step st -> retry_in_step st'.
Proof.
  unfold retry_in_step. intros [-> ->]. auto.
Qed.

Lemma retry_in_step_handle (e : Event) (st : State) :
  retry_in_step st -> enabled e st = true -> retry_in_step (handle e st).
Proof.
  intros HR _. destruct e as [file uuid | file uuid | | | n duration uuid
                             | n uuid | n r | n | | n r | b]; cbn [handle].
  - destruct (user st); [| assumption]. unfold handleFileInput.
    destruct (isProcessing st); [assumption |].
    eapply retry_in_step_frame; [apply retry_fields_check_and_process | assumption].
  - destruct (user st); [| assumption]. unfold handleDrop.
    destruct (isProcessing (setIsDragging false st)); [assumption |].
    eapply retry_in_step_frame; [apply retry_fields_check_and_process | assumption].
  - destruct (user st); [| assumption]. unfold handleDragOver.
    destruct (negb (isProcessing st)); assumption.
  - destruct (user st); assumption.
  - destruct (nth_error (probes st) n); [| assumption].
    eapply retry_in_step_frame;
      [apply retry_fields_after_validateDuration | assumption].
  - destruct (nth_error (probes st) n); [| assumption].
    eapply retry_in_step_frame;
      [apply retry_fields_after_validateDuration | assumption].
  - destruct (nth_error (process_calls st) n); [| assumption].
    eapply retry_in_step_frame;
      [apply retry_fields_processFile_settled | assumption].
  - destruct (user st); [| assumption].
    destruct (nth_error (files st) n); assumption.
  - destruct (user st); [| assumption].
    destruct (isRetrying st) eqn:Hbusy; [assumption |].
    unfold retry_in_step in HR. rewrite Hbusy in HR.
    unfold handleRetrySummarization.
    destruct (selectedFile st) as [f |];
      [| unfold retry_in_step; now rewrite Hbusy].
    destruct (partialResult f) as [d |];
      [| unfold retry_in_step; now rewrite Hbusy].
    destruct (data.cache_key d) as [key |];
      [| unfold retry_in_step; now rewrite Hbusy].
    destruct (JS.truthy (Some key));
      [| unfold retry_in_step; now rewrite Hbusy].
    unfold retry_in_step. simpl. now rewrite HR.
  - destruct (nth_error (retry_calls st) n) as [c |] eqn:Hn; [| assumption].
    unfold retry_in_step in HR.
    destruct (isRetrying st).
    + destruct (retry_calls st) as [| c0 [| c1 cs]] eqn:Hcs; try discriminate.
      assert (Hrm : remove_nth n [c0] = []).
      { destruct n as [| [| n]]; simpl in Hn; try discriminate; reflexivity. }
      rewrite Hrm. unfold handleRetrySummarization_settled, fetchUserCredits.
      destruct r as [err | code d]; [reflexivity |].
      destruct (negb (JS.ok code)); [reflexivity |].
      destruct (retry_user c); reflexivity.
    + rewrite HR in Hn. destruct n; discriminate.
  - destruct (balance_calls st); [assumption |]. destruct b; assumption.
Qed.

(** X4. In every reachable state at most one retry request is waiting
    for its answer, and [isRetrying] (which disables the retry button) is
    true exactly while it is. *)
Theorem one_retry_at_a_time (st : State) :
  reachable st ->
  (List.length (retry_calls st) <= 1)%nat /\
  (isRetrying st = true <-> retry_calls st <> []).
Proof.
  intros (u & events & Hrun).
  assert (HR : retry_in_step st).
  { eapply (run_invariant retry_in_step retry_in_step_handle); [| exact Hrun].
    unfold init, fetchUserCredits. destruct u; reflexivity. }
  unfold retry_in_step in HR. destruct (isRetrying st).
  - split; [lia |]. split; [| reflexivity].
    intros _ Hnil. rewrite Hnil in HR. discriminate.
  - rewrite HR. split; [simpl; lia |]. split; [discriminate | congruence].
Qed.

Lemma one_retry_at_a_time_witness :
  (List.length (retry_calls (state_after upload_a_retrying)) <= 1)%nat /\
  (isRetrying (state_after upload_a_retrying) = true <->
   retry_calls (state_after upload_a_retrying) <> []).
Proof.
  apply (one_retry_at_a_time (state_after upload_a_retrying)).
  exists (Some user1), upload_a_retrying. vm_compute. reflexivity.
Defined.

End StatusProofs.

(** * The dashboard: from the chosen file to the request *)
Module UploadProofs.
Import Dashboard Scenario Invariant DashboardExtra ReachProofs.
Local Open Scope list_scope.

Lemma handlers_unfold (file : option File.t) (uuid : string) (st : State) :
  isProcessing st = false ->
  handleFileInput file uuid st = check_and_process file uuid st /\
  handleDrop file uuid st = check_and_process file uuid (setIsDragging false st).
Proof.
  intros Hp. unfold handleFileInput, handleDrop.
  replace (isProcessing (setIsDragging false st)) with (isProcessing st)
    by reflexivity.
  rewrite Hp. split; reflexivity.
Qed.

(** X5. A file of an allowed format that is larger than 50MB is refused
    by [handleFileInput] and [handleDrop]: no item, no media element, no
    [/api/process] call and no request; when no item is processing and
    the credit check passes, the alert is the one for the size. *)
Theorem too_large_rejected (st : State) (file : File.t) (uuid : string) :
  JS.includes ALLOWED_EXTENSIONS (ext_of file) = true ->
  File.size file > MAX_FILE_SIZE ->
  forall st',
    st' = handleFileInput (Some file) uuid st \/ st' = handleDrop (Some file) uuid st ->
    files st' = files st /\
    probes st' = probes st /\
    process_calls st' = process_calls st /\
    requests st' = requests st /\
    (isProcessing st = false -> checkCredits st = true ->
     alerts st' = alerts st ++ [Text "File terlalu besar (max 50MB)"]).
Proof.
  intros Hext Hsize st' Hst'.
  assert (Hv : validateFile file = Some "File terlalu besar (max 50MB)").
  { unfold validateFile. rewrite Hext. apply Z.gtb_gt in Hsize.
    cbn [negb]. now rewrite Hsize. }
  assert (Hcp : forall s, check_and_process (Some file) uuid s =
                  if negb (checkCredits s)
                  then alert (Text "Credit tidak cukup. Silakan top up credit Anda.") s
                  else alert (Text "File terlalu besar (max 50MB)") s).
  { intros s. unfold check_and_process. rewrite Hv. reflexivity. }
  destruct (isProcessing st) eqn:Hp.
  - unfold handleFileInput, handleDrop in Hst'.
    replace (isProcessing (setIsDragging false st)) with (isProcessing st) in Hst'
      by reflexivity.
    rewrite Hp in Hst'.
    destruct Hst' as [-> | ->]; repeat split; try reflexivity; discriminate.
  - destruct (handlers_unfold (Some file) uuid st Hp) as [H1 H2].
    rewrite H1, H2, !Hcp in Hst'.
    replace (checkCredits (setIsDragging false st)) with (checkCredits st) in Hst'
      by reflexivity.
    destruct (checkCredits st); simpl in Hst';
      destruct Hst' as [-> | ->]; repeat split; try reflexivity;
      intros; discriminate.
Qed.

Lemma too_large_rejected_witness :
  let big := {| File.name := "rapat.mp4"; File.size := 60 * 1024 * 1024;
                File.type := "video/mp4" |} in
  let st := state_after [balance_settled (Some two_free_credits)] in
  alerts (handleDrop (Some big) "id-x" st) = [Text "File terlalu besar (max 50MB)"].
Proof.
  pose proof (too_large_rejected
                (state_after [balance_settled (Some two_free_credits)])
                {| File.name := "rapat.mp4"; File.size := 60 * 1024 * 1024;
                   File.type := "video/mp4" |} "id-x" eq_refl eq_refl
                _ (or_intror eq_refl)) as (_ & _ & _ & _ & Halerts).
  exact (Halerts eq_refl eq_refl).
Defined.

Lemma lower_ascii_dot (c : ascii) :
  Ascii.eqb (JS.lower_ascii c) "." = Ascii.eqb c ".".
Proof.
  destruct c as [[] [] [] [] [] [] [] []]; reflexivity.
Qed.

Lemma split_cons (c : ascii) (r : string) :
  JS.split "." (String c r) =
    if Ascii.eqb c "." then EmptyString :: JS.split "." r
    else match JS.split "." r with
         | h :: t => String c h :: t
         | [] => [String c EmptyString]
         end.
Proof. reflexivity. Qed.

Lemma toLowerCase_other (c c1 c2 : ascii) (r : string) :
  JS.is_kelvin c c1 c2 = false ->
  JS.toLowerCase (String c (String c1 (String c2 r))) =
    String (JS.lower_ascii c) (JS.toLowerCase (String c1 (String c2 r))).
Proof.
  intros H. simpl. now rewrite H.
Qed.

Lemma toLowerCase_kelvin (r : string) :
  JS.toLowerCase (String "226" (String "132" (String "170" r))) =
    String "k" (JS.toLowerCase r).
Proof. reflexivity. Qed.

Lemma split_toLowerCase (s : string) :
  JS.split "." (JS.toLowerCase s) = map JS.toLowerCase (JS.split "." s).
Proof.
  assert (H : forall n s, (String.length s <= n)%nat ->
                JS.split "." (JS.toLowerCase s) =
                  map JS.toLowerCase (JS.split "." s)).
  { clear s. induction n as [| n IH]; intros s Hlen.
    - destruct s; [reflexivity | simpl in Hlen; lia].
    - destruct s as [| c [| c1 [| c2 r]]].
      + reflexivity.
      + simpl. rewrite lower_ascii_dot. destruct (Ascii.eqb c "."); reflexivity.
      + simpl. rewrite !lower_ascii_dot.
        destruct (Ascii.eqb c "."), (Ascii.eqb c1 "."); reflexivity.
      + assert (Hr : JS.split "." (JS.toLowerCase r) =
                     map JS.toLowerCase (JS.split "." r)).
        { apply IH. simpl in Hlen. lia. }
        destruct (JS.is_kelvin c c1 c2) eqn:Hk.
        * unfold JS.is_kelvin in Hk.
          apply andb_true_iff in Hk as [Hk H2]. apply andb_true_iff in Hk as [H0 H1].
          apply Ascii.eqb_eq in H0, H1, H2. subst c c1 c2.
          rewrite toLowerCase_kelvin, !split_cons, Hr.
          change (Ascii.eqb "k" ".") with false.
          change (Ascii.eqb "226" ".") with false.
          change (Ascii.eqb "132" ".") with false.
          change (Ascii.eqb "170" ".") with false.
          cbv iota.
          destruct (JS.split "." r) as [| h t]; reflexivity.
        * assert (Hr1 : JS.split "." (JS.toLowerCase (String c1 (String c2 r))) =
                        map JS.toLowerCase (JS.split "." (String c1 (String c2 r)))).
          { apply IH. simpl in Hlen |- *. lia. }
          rewrite toLowerCase_other by assumption.
          rewrite (split_cons (JS.lower_ascii c)), (split_cons c), lower_ascii_dot, Hr1.
          destruct (Ascii.eqb c "."); [reflexivity |].
          rewrite (split_cons c1), (split_cons c2).
          destruct (Ascii.eqb c1 "."); [reflexivity |].
          destruct (Ascii.eqb c2 "."); [reflexivity |].
          destruct (JS.split "." r) as [| h t]; simpl; rewrite ?Hk; reflexivity. }
  apply (H (String.length s)). lia.
Qed.

Lemma pop_map (g : string -> string) (l : list string) :
  JS.pop (map g l) = option_map g (JS.pop l).
Proof.
  induction l as [| a [| b l] IH]; try reflexivity.
  exact IH.
Qed.

Lemma ext_of_lower_name (file : File.t) :
  ext_of file =
    ("." ++ match JS.pop (JS.split "." (JS.toLowerCase (File.name file))) with
            | Some last => last
            | None => "undefined"
            end)%string.
Proof.
  unfold ext_of. rewrite split_toLowerCase, pop_map.
  destruct (JS.pop (JS.split "." (File.name file))); reflexivity.
Qed.

(** X6. [validateFile] does not look at the letter case of the name:
    two files of the same size whose names are equal once lower-cased
    (ASCII letters, and the Kelvin sign, which lower-cases to [k]) get
    the same verdict. *)
Theorem validateFile_ignores_case (f1 f2 : File.t) :
  JS.toLowerCase (File.name f1) = JS.toLowerCase (File.name f2) ->
  File.size f1 = File.size f2 ->
  validateFile f1 = validateFile f2.
Proof.
  intros Hname Hsize. unfold validateFile.
  rewrite (ext_of_lower_name f1), (ext_of_lower_name f2), Hname, Hsize.
  reflexivity.
Qed.

Lemma validateFile_ignores_case_witness :
  validateFile {| File.name := "Rapat.MP4"; File.size := 10; File.type := "" |} =
  validateFile {| File.name := "rapat.mp4"; File.size := 10; File.type := "" |}.
Proof.
  apply validateFile_ignores_case; reflexivity.
Defined.

(** X7. As long as no balance has been stored ([userCredits] is still
    [null], as it is from the first render on), every upload is refused
    like one without credits: no item, no media element, no call and no
    request, and the insufficient-credit alert whenever no item is
    processing. *)
Theorem no_balance_no_upload (st : State) (file : option File.t) (uuid : string) :
  userCredits st = None ->
  forall st', st' = handleFileInput file uuid st \/ st' = handleDrop file uuid st ->
    files st' = files st /\ probes st' = probes st /\
    process_calls st' = process_calls st /\ requests st' = requests st /\
    (isProcessing st = false ->
     alerts st' =
       alerts st ++ [Text "Credit tidak cukup. Silakan top up credit Anda."]).
Proof.
  intros Hnone st' Hst'.
  assert (Hno : checkCredits st = false) by (unfold checkCredits; now rewrite Hnone).
  assert (Hcp : forall s, checkCredits s = false ->
                  check_and_process file uuid s =
                    alert (Text "Credit tidak cukup. Silakan top up credit Anda.") s).
  { intros s Hs. unfold check_and_process. now rewrite Hs. }
  destruct (isProcessing st) eqn:Hp.
  - unfold handleFileInput, handleDrop in Hst'.
    replace (isProcessing (setIsDragging false st)) with (isProcessing st) in Hst'
      by reflexivity.
    rewrite Hp in Hst'.
    destruct Hst' as [-> | ->]; repeat split; try reflexivity; discriminate.
  - destruct (handlers_unfold file uuid st Hp) as [H1 H2].
    rewrite H1, H2, !Hcp in Hst' by assumption.
    destruct Hst' as [-> | ->]; repeat split; reflexivity.
Qed.

Lemma no_balance_no_upload_witness :
  alerts (handleFileInput (Some a_mp3) "id-a" (init (Some user1))) =
    [Text "Credit tidak cukup. Silakan top up credit Anda."].
Proof.
  destruct (no_balance_no_upload (init (Some user1)) (Some a_mp3) "id-a" eq_refl
              _ (or_introl eq_refl)) as (_ & _ & _ & _ & Halerts).
  exact (Halerts eq_refl).
Defined.

(** X8. While an item is processing the upload handlers are inert:
    choosing a file, dropping a file or dragging over the drop zone adds
    no item, starts no probe or call, sends nothing, shows no alert and
    never switches the drop-zone highlight on. *)
Theorem inert_while_processing (st : State) (e : Event) :
  isProcessing st = true ->
  (exists file uuid, e = onChange file uuid \/ e = onDrop file uuid) \/ e = onDragOver ->
  let st' := handle e st in
  files st' = files st /\ selectedFileId st' = selectedFileId st /\
  probes st' = probes st /\ process_calls st' = process_calls st /\
  requests st' = requests st /\ alerts st' = alerts st /\
  (isDragging st' = true -> isDragging st = true).
Proof.
  intros Hp He. cbv zeta.
  destruct He as [(file & uuid & [-> | ->]) | ->]; cbn [handle];
    unfold handleFileInput, handleDrop, handleDragOver;
    replace (isProcessing (setIsDragging false st)) with (isProcessing st)
      by reflexivity;
    rewrite Hp; destruct (user st); simpl; repeat split; auto; discriminate.
Qed.

Lemma inert_while_processing_witness :
  requests (handle (onDrop (Some b_mp4) "id-b") (state_after upload_a)) =
    requests (state_after upload_a).
Proof.
  refine (proj1 (proj2 (proj2 (proj2 (proj2
    (inert_while_processing (state_after upload_a) (onDrop (Some b_mp4) "id-b")
       _ _)))))).
  - vm_compute. reflexivity.
  - left. exists (Some b_mp4), "id-b". right. reflexivity.
Defined.

(** What [processFile] leaves behind when [uuid] is a fresh id. *)
Lemma processFile_effect (u : option User.t) (uuid : string) (file : File.t)
    (st : State) :
  fresh uuid st ->
  let item := {| id := uuid; name := File.name file; status := processing;
                 progress := Some 10; result := None; partialResult := None;
                 error := None |} in
  let st' := processFile u uuid file st in
  files st' = item :: files st /\
  selectedFile st' = Some item /\
  isProcessing st' = true /\
  requests st' = requests st ++ [process_request u file] /\
  process_calls st' =
    process_calls st ++ [{| call_fileId := uuid; call_user := u |}] /\
  alerts st' = alerts st /\ probes st' = probes st.
Proof.
  intros Hfresh. cbv zeta.
  pose proof (processFile_files u uuid file st Hfresh) as Hfiles.
  change (spread (new_item uuid file)
            {| set_status := None; set_progress := Some (Some 10);
               set_result := None; set_partialResult := None;
               set_error := None |})
    with {| id := uuid; name := File.name file; status := processing;
            progress := Some 10; result := None; partialResult := None;
            error := None |} in Hfiles.
  split; [exact Hfiles |].
  split.
  { unfold selectedFile.
    replace (selectedFileId (processFile u uuid file st)) with (Some uuid)
      by reflexivity.
    rewrite Hfiles. simpl. now rewrite String.eqb_refl. }
  split.
  { unfold isProcessing. rewrite Hfiles. reflexivity. }
  repeat split.
Qed.

(** X9. An upload that passes every check and needs no probe (no item
    is processing, the credit check passes, [validateFile] accepts the
    file and its MIME type is neither audio nor video) starts at once:
    a new item for the file is put in front of the list with status
    [processing] and progress 10 and is selected, exactly one request is
    sent, the multipart [POST /api/process] with the file and the user's
    id, and the upload controls are disabled. *)
Theorem accepted_upload_starts (st : State) (u : User.t) (file : File.t)
    (uuid : string) :
  user st = Some u -> isProcessing st = false -> checkCredits st = true ->
  validateFile file = None -> validateDuration file = None ->
  fresh uuid st ->
  let item := {| id := uuid; name := File.name file; status := processing;
                 progress := Some 10; result := None; partialResult := None;
                 error := None |} in
  let st' := handle (onChange (Some file) uuid) st in
  files st' = item :: files st /\
  selectedFile st' = Some item /\
  isProcessing st' = true /\
  requests st' =
    requests st ++
      [{| method := "POST"; path := "/api/process";
          query := if JS.truthy (Some (User.id u))
                   then [("user_id"%string, User.id u)] else [];
          body := FormData [("file"%string, FormFile file)] |}] /\
  alerts st' = alerts st.
Proof.
  intros Hu Hp Hc Hv Hd Hfresh. cbv zeta. cbn [handle]. rewrite Hu.
  unfold handleFileInput. rewrite Hp. unfold check_and_process.
  rewrite Hc, Hv, Hd, Hu. cbn [negb after_validateDuration].
  destruct (processFile_effect (Some u) uuid file st Hfresh)
    as (H1 & H2 & H3 & H4 & _ & H6 & _).
  auto.
Qed.

Lemma accepted_upload_starts_witness :
  let mkv := {| File.name := "rapat.mkv"; File.size := 1000; File.type := "" |} in
  let st := state_after [balance_settled (Some two_free_credits)] in
  requests (handle (onChange (Some mkv) "id-m") st) =
    requests st ++ [process_request (Some user1) mkv].
Proof.
  refine (proj1 (proj2 (proj2 (proj2
    (accepted_upload_starts
       (state_after [balance_settled (Some two_free_credits)]) user1
       {| File.name := "rapat.mkv"; File.size := 1000; File.type := "" |}
       "id-m" eq_refl eq_refl eq_refl eq_refl eq_refl _))))).
  intros H. vm_compute in H. exact H.
Defined.

(** X10. For a file whose MIME type is audio or video the duration
    probe comes before the submission: the handler only creates the media
    element, with the duration limit of that moment, and waits; no item
    is added and nothing is sent until the element answers. *)
Theorem probe_before_submission (st : State) (u : User.t) (file : File.t)
    (uuid : string) (kind : MediaKind) :
  user st = Some u -> isProcessing st = false -> checkCredits st = true ->
  validateFile file = None -> validateDuration file = Some kind ->
  let st' := handle (onChange (Some file) uuid) st in
  probes st' =
    probes st ++ [{| probe_file := file; probe_element := kind;
                     probe_max := getMaxDuration st; probe_user := Some u |}] /\
  files st' = files st /\ process_calls st' = process_calls st /\
  requests st' = requests st /\ alerts st' = alerts st.
Proof.
  intros Hu Hp Hc Hv Hd. cbv zeta. cbn [handle]. rewrite Hu.
  unfold handleFileInput. rewrite Hp. unfold check_and_process.
  rewrite Hc, Hv, Hd, Hu. repeat split.
Qed.

Lemma probe_before_submission_witness :
  let st := state_after [balance_settled (Some two_free_credits)] in
  requests (handle (onChange (Some a_mp3) "id-a") st) = requests st.
Proof.
  exact (proj1 (proj2 (proj2 (proj2
    (probe_before_submission
       (state_after [balance_settled (Some two_free_credits)]) user1
       a_mp3 "id-a" audio eq_refl eq_refl eq_refl eq_refl eq_refl))))).
Defined.

(** X11. When the media element reports a duration above the limit
    that was in force when the file was chosen, the upload is refused
    with the duration alert, which carries the duration in minutes and
    that limit: no item is added and nothing is sent. *)
Theorem duration_exceeded_rejected (st : State) (n : nat) (p : Probe)
    (duration : Q) (uuid : string) :
  nth_error (probes st) n = Some p ->
  (inject_Z (probe_max p) < duration / inject_Z 60)%Q ->
  let st' := handle (onloadedmetadata n duration uuid) st in
  alerts st' =
    alerts st ++ [DurationText (duration / inject_Z 60)%Q (probe_max p)] /\
  probes st' = remove_nth n (probes st) /\
  files st' = files st /\ process_calls st' = process_calls st /\
  requests st' = requests st.
Proof.
  intros Hn Hlt. cbv zeta. cbn [handle]. rewrite Hn.
  unfold onloadedmetadata_resolve.
  destruct (Qle_bool (duration / inject_Z 60) (inject_Z (probe_max p))) eqn:Hle.
  - apply Qle_bool_iff in Hle. exfalso. exact (Qlt_not_le _ _ Hlt Hle).
  - repeat split.
Qed.

Lemma duration_exceeded_rejected_witness :
  let st := state_after [balance_settled (Some two_free_credits);
                         onDrop (Some a_mp3) "unused"] in
  alerts (handle (onloadedmetadata 0 (2100 # 1)%Q "id-a") st) =
    [DurationText ((2100 # 1) / inject_Z 60)%Q 20].
Proof.
  refine (proj1
    (duration_exceeded_rejected
       (state_after [balance_settled (Some two_free_credits);
                     onDrop (Some a_mp3) "unused"])
       0 {| probe_file := a_mp3; probe_element := audio; probe_max := 20;
            probe_user := Some user1 |}
       (2100 # 1)%Q "id-a" _ _)).
  - vm_compute. reflexivity.
  - vm_compute. reflexivity.
Defined.

(** X12. The probe is best effort: when the media element reports a
    duration within the limit, and also when it fails to load the file
    at all, the upload goes on: the probe is gone, the item is added in
    front of the list and selected, and the [POST /api/process] with the
    file is the one request sent. *)
Theorem probe_passed_or_failed_uploads (st : State) (n : nat) (p : Probe)
    (e : Event) (uuid : string) :
  nth_error (probes st) n = Some p ->
  fresh uuid st ->
  (exists duration,
     e = onloadedmetadata n duration uuid /\
     (duration / inject_Z 60 <= inject_Z (probe_max p))%Q) \/
  e = onerror n uuid ->
  let item := {| id := uuid; name := File.name (probe_file p);
                 status := processing; progress := Some 10; result := None;
                 partialResult := None; error := None |} in
  let st' := handle e st in
  probes st' = remove_nth n (probes st) /\
  files st' = item :: files st /\
  selectedFile st' = Some item /\
  requests st' = requests st ++ [process_request (probe_user p) (probe_file p)] /\
  alerts st' = alerts st.
Proof.
  intros Hn Hfresh He. cbv zeta.
  assert (Hst' : handle e st =
                 processFile (probe_user p) uuid (probe_file p)
                   (set_probes (remove_nth n (probes st)) st)).
  { destruct He as [(duration & -> & Hle) | ->]; cbn [handle]; rewrite Hn.
    - unfold onloadedmetadata_resolve.
      apply Qle_bool_iff in Hle. rewrite Hle. reflexivity.
    - reflexivity. }
  rewrite Hst'.
  destruct (processFile_effect (probe_user p) uuid (probe_file p)
              (set_probes (remove_nth n (probes st)) st) Hfresh)
    as (H1 & H2 & _ & H4 & _ & H6 & H7).
  auto.
Qed.

Lemma probe_passed_or_failed_uploads_witness :
  let st := state_after [balance_settled (Some two_free_credits);
                         onDrop (Some a_mp3) "unused"] in
  requests (handle (onerror 0 "id-a") st) =
    requests st ++ [process_request (Some user1) a_mp3].
Proof.
  refine (proj1 (proj2 (proj2 (proj2
    (probe_passed_or_failed_uploads
       (state_after [balance_settled (Some two_free_credits);
                     onDrop (Some a_mp3) "unused"])
       0 {| probe_file := a_mp3; probe_element := audio; probe_max := 20;
            probe_user := Some user1 |}
       (onerror 0 "id-a") "id-a" _ _ (or_intror eq_refl)))))).
  - vm_compute. reflexivity.
  - intros H. vm_compute in H. exact H.
Defined.

End UploadProofs.

(** * The dashboard: failed processing and the retry *)
Module OutcomeProofs.
Import Dashboard Scenario Invariant DashboardExtra ReachProofs.
Local Open Scope list_scope.

Lemma updateFile_items (fileId : string) (u : Updates) (st : State) (f' : FileItem) :
  In f' (files (updateFile fileId u st)) -> id f' = fileId ->
  exists f, In f (files st) /\ id f = fileId /\ f' = spread f u.
Proof.
  simpl. intros Hin Hid. apply in_map_iff in Hin as (f & <- & Hf).
  destruct (String.eqb (id f) fileId) eqn:Heq.
  - exists f. auto.
  - apply String.eqb_neq in Heq. contradiction.
Qed.

(** X13. A processing attempt that fails (thrown error, or a response
    that is not ok, partial or not) sends no request: the balance is not
    fetched again; the items of that call go to status [error] with
    progress 100, and nothing is alerted. *)
Theorem failed_processing_sends_nothing
    (st : State) (c : ProcessCall) (r : Fetched data.t) :
  is_failure r = true ->
  let st' := processFile_settled c r st in
  requests st' = requests st /\
  balance_calls st' = balance_calls st /\
  alerts st' = alerts st /\
  forall f, In f (files st') -> id f = call_fileId c ->
    status f = error_ /\ progress f = Some 100.
Proof.
  intros Hfail. cbv zeta. unfold processFile_settled.
  destruct r as [err | code d]; simpl in Hfail.
  - repeat split;
      destruct (updateFile_items _ _ _ _ H H0) as (f0 & _ & _ & ->); reflexivity.
  - rewrite Hfail.
    destruct (match data.status d with
              | Some s => String.eqb s "partial"
              | None => false
              end);
      repeat split;
      destruct (updateFile_items _ _ _ _ H H0) as (f0 & _ & _ & ->); reflexivity.
Qed.

Lemma failed_processing_sends_nothing_witness :
  requests (processFile_settled {| call_fileId := "id-a"; call_user := Some user1 |}
              (Response 500 quota_body) (state_after upload_a)) =
    requests (state_after upload_a).
Proof.
  exact (proj1 (failed_processing_sends_nothing (state_after upload_a)
                  {| call_fileId := "id-a"; call_user := Some user1 |}
                  (Response 500 quota_body) eq_refl)).
Defined.

(** X14. The message of a hard failure is taken from the backend: for a
    response that is not ok and not partial, and whose [error] and
    [detail] fields are each absent or a string, the item's [error] is
    [data.error] when that is a non-empty string, otherwise
    [data.detail] when that is one, otherwise the generic message; it is
    never empty. *)
Theorem hard_failure_message
    (st : State) (c : ProcessCall) (code : Z) (d : data.t) :
  JS.ok code = false ->
  data.status d <> Some "partial"%string ->
  exists msg : string,
    msg <> ""%string /\
    (forall f, In f (files (processFile_settled c (Response code d) st)) ->
       id f = call_fileId c -> error f = Some msg /\ status f = error_) /\
    (JS.truthy (data.error d) = true -> data.error d = Some msg) /\
    (JS.truthy (data.error d) = false -> JS.truthy (data.detail d) = true ->
       data.detail d = Some msg) /\
    (JS.truthy (data.error d) = false -> JS.truthy (data.detail d) = false ->
       msg = "Terjadi kesalahan"%string).
Proof.
  intros Hko Hnot.
  assert (Hstatus : match data.status d with
                    | Some s => String.eqb s "partial"
                    | None => false
                    end = false).
  { destruct (data.status d) as [s |]; [| reflexivity].
    apply String.eqb_neq. congruence. }
  assert (Hmsg : exists msg : string,
            JS.or (JS.or (data.error d) (data.detail d)) (Some "Terjadi kesalahan")
              = Some msg /\ msg <> ""%string /\
            (JS.truthy (data.error d) = true -> data.error d = Some msg) /\
            (JS.truthy (data.error d) = false -> JS.truthy (data.detail d) = true ->
               data.detail d = Some msg) /\
            (JS.truthy (data.error d) = false -> JS.truthy (data.detail d) = false ->
               msg = "Terjadi kesalahan"%string)).
  { unfold JS.or.
    destruct (JS.truthy (data.error d)) eqn:He.
    - rewrite He. destruct (data.error d) as [e |]; [| discriminate].
      exists e. repeat split; try congruence.
      simpl in He. apply negb_true_iff, String.eqb_neq in He. exact He.
    - destruct (JS.truthy (data.detail d)) eqn:Hd.
      + destruct (data.detail d) as [e |]; [| discriminate].
        exists e. repeat split; try congruence.
        simpl in Hd. apply negb_true_iff, String.eqb_neq in Hd. exact Hd.
      + exists "Terjadi kesalahan"%string. repeat split; congruence. }
  destruct Hmsg as (msg & Hor & Hne & H1 & H2 & H3).
  exists msg. split; [exact Hne |]. split; [| auto].
  intros f Hf Hid. unfold processFile_settled in Hf.
  rewrite Hko, Hstatus in Hf. cbn [negb] in Hf.
  destruct (updateFile_items _ _ _ _ Hf Hid) as (f0 & _ & _ & ->).
  simpl. rewrite Hor. split; reflexivity.
Qed.

Lemma hard_failure_message_witness :
  exists msg : string,
    msg <> ""%string /\
    data.error quota_body = Some msg /\
    forall f, In f (files (processFile_settled
                              {| call_fileId := "id-a"; call_user := Some user1 |}
                              (Response 500 quota_body) (state_after upload_a))) ->
      id f = "id-a"%string -> error f = Some msg.
Proof.
  destruct (hard_failure_message (state_after upload_a)
              {| call_fileId := "id-a"; call_user := Some user1 |}
              500 quota_body eq_refl ltac:(discriminate))
    as (msg & Hne & Hitems & Herr & _).
  exists msg. split; [exact Hne |]. split; [exact (Herr eq_refl) |].
  intros f Hf Hid. exact (proj1 (Hitems f Hf Hid)).
Defined.

(** X15. A retry needs a stored cache key: when no item is selected, or
    the selected item has no partial result, or its cache key is missing
    or empty, [handleRetrySummarization] does nothing at all: no request
    and no change of state. *)
Theorem retry_without_key_does_nothing (st : State) :
  (forall f d, selectedFile st = Some f -> partialResult f = Some d ->
     JS.truthy (data.cache_key d) = false) ->
  handleRetrySummarization st = st.
Proof.
  intros H. unfold handleRetrySummarization.
  destruct (selectedFile st) as [f |]; [| reflexivity].
  destruct (partialResult f) as [d |] eqn:Hpartial; [| reflexivity].
  specialize (H f d eq_refl Hpartial).
  destruct (data.cache_key d) as [key |]; [| reflexivity].
  now rewrite H.
Qed.

Lemma retry_without_key_does_nothing_witness :
  handleRetrySummarization (state_after upload_a_ok) = state_after upload_a_ok.
Proof.
  apply retry_without_key_does_nothing.
  intros f d Hsel Hpartial. vm_compute in Hsel.
  injection Hsel as <-. discriminate.
Defined.

(** X16. A retry that succeeds fetches the balance once: its only
    request is the [GET] of [/api/credits/balance?user_id=] followed by
    the id of the user; it re-enables the retry button, alerts nothing,
    and leaves alone every item but the one that was retried. *)
Theorem retry_success_refreshes_once
    (st : State) (rc : RetryCall) (sel : string) (u : User.t)
    (code : Z) (d : data.t) :
  retry_selectedFileId rc = Some sel -> retry_user rc = Some u ->
  JS.ok code = true ->
  let st' := handleRetrySummarization_settled rc (Response code d) st in
  requests st' =
    requests st ++
      [{| method := "GET";
          path := ("/api/credits/balance?user_id=" ++ User.id u)%string;
          query := []; body := NoBody |}] /\
  isRetrying st' = false /\
  alerts st' = alerts st /\
  List.length (files st') = List.length (files st) /\
  forall f, In f (files st) -> id f <> sel -> In f (files st').
Proof.
  intros Hsel Hu Hok. cbv zeta. unfold handleRetrySummarization_settled.
  rewrite Hok, Hsel, Hu. cbn [negb]. simpl.
  repeat split.
  - apply length_map.
  - intros f Hf Hne. apply in_map_iff. exists f. split; [| exact Hf].
    apply String.eqb_neq in Hne. now rewrite Hne.
Qed.

Lemma retry_success_refreshes_once_witness :
  requests (handleRetrySummarization_settled
              {| retry_selectedFileId := Some "id-a"; retry_user := Some user1 |}
              (Response 200 success_body) (state_after upload_a_retrying)) =
    requests (state_after upload_a_retrying) ++
      [{| method := "GET"; path := "/api/credits/balance?user_id=user-1";
          query := []; body := NoBody |}].
Proof.
  exact (proj1 (retry_success_refreshes_once (state_after upload_a_retrying)
                  {| retry_selectedFileId := Some "id-a"; retry_user := Some user1 |}
                  "id-a" user1 200 success_body eq_refl eq_refl eq_refl)).
Defined.

End OutcomeProofs.

(** * The result views: content, toggles and download names *)
Module ViewExtraProofs.
Import JSX.
Local Open Scope list_scope.

Lemma flat_map_one {A B} (g : A -> B) (l : list A) :
  flat_map (fun x => [g x]) l = map g l.
Proof.
  induction l as [| a l IH]; simpl; [reflexivity | now rewrite IH].
Qed.

Lemma flat_map_map {A B C} (g : A -> B) (h : B -> list C) (l : list A) :
  flat_map h (map g l) = flat_map (fun x => h (g x)) l.
Proof.
  induction l as [| a l IH]; simpl; [reflexivity | now rewrite IH].
Qed.

Lemma numbered_texts (l : list string) (start : nat) (h : nat * string -> Node) :
  (forall i p, texts (h (i, p)) = [p]) ->
  flat_map texts (map h (combine (seq start (List.length l)) l)) = l.
Proof.
  intros Hh. revert start. induction l as [| a l IH]; intros start; simpl;
    [reflexivity |].
  now rewrite Hh, IH.
Qed.

Lemma numbered_numbers (l : list string) (start : nat) (h : nat * string -> Node) :
  (forall i p, JSXExtra.numbers (h (i, p)) = [Z.of_nat i + 1]) ->
  flat_map JSXExtra.numbers (map h (combine (seq start (List.length l)) l)) =
    map (fun i => Z.of_nat i + 1) (seq start (List.length l)).
Proof.
  intros Hh. revert start. induction l as [| a l IH]; intros start; simpl;
    [reflexivity |].
  now rewrite Hh, IH.
Qed.

(** X17. The list sections show the backend's text as it is.  For every
    summary, the texts of the key-points container are the key points,
    in order and complete, in both views, and [ResultDisplay] numbers
    them 1, 2, ...; and when there is at least one action item, the
    texts of the action-items container are the action items, in order
    and complete, in both views. *)
Theorem lists_rendered_in_order (s : data.Summary) :
  texts (DashboardView.KeyPoints_content s) = data.poin_penting s /\
  texts (ResultDisplay.Points_content s) = data.poin_penting s /\
  JSXExtra.numbers (ResultDisplay.Points_content s) =
    map (fun i => Z.of_nat i + 1) (seq 0 (List.length (data.poin_penting s))) /\
  (data.action_items s <> [] ->
   texts (DashboardView.ActionItems_content s) = data.action_items s /\
   texts (ResultDisplay.Actions_content s) = data.action_items s).
Proof.
  split; [| split; [| split]].
  - unfold DashboardView.KeyPoints_content. simpl.
    rewrite flat_map_map. simpl. rewrite flat_map_one. apply map_id.
  - unfold ResultDisplay.Points_content. simpl. rewrite app_nil_r.
    apply numbered_texts. reflexivity.
  - unfold ResultDisplay.Points_content. simpl. rewrite app_nil_r.
    apply numbered_numbers. reflexivity.
  - intros Hne.
    assert (Hpos : (Z.of_nat (List.length (data.action_items s)) >? 0) = true).
    { destruct (data.action_items s); [congruence | reflexivity]. }
    split.
    + unfold DashboardView.ActionItems_content. rewrite Hpos. simpl.
      rewrite flat_map_map. simpl. rewrite flat_map_one. apply map_id.
    + unfold ResultDisplay.Actions_content. rewrite Hpos. simpl.
      rewrite app_nil_r, flat_map_map. simpl. rewrite flat_map_one. apply map_id.
Qed.

Lemma lists_rendered_in_order_witness :
  let s := {| data.ringkasan_singkat := "Rapat mingguan tim.";
              data.poin_penting := ["Rilis ditunda"; "Anggaran disetujui"];
              data.action_items := ["Kirim notulen"] |} in
  texts (ResultDisplay.Points_content s) = ["Rilis ditunda"; "Anggaran disetujui"] /\
  JSXExtra.numbers (ResultDisplay.Points_content s) = [1; 2] /\
  texts (DashboardView.ActionItems_content s) = ["Kirim notulen"] /\
  texts (ResultDisplay.Actions_content s) = ["Kirim notulen"].
Proof.
  destruct (lists_rendered_in_order
              {| data.ringkasan_singkat := "Rapat mingguan tim.";
                 data.poin_penting := ["Rilis ditunda"; "Anggaran disetujui"];
                 data.action_items := ["Kirim notulen"] |})
    as (_ & Htexts & Hnumbers & Hactions).
  destruct (Hactions ltac:(discriminate)) as [Hdash Hresult].
  split; [exact Htexts |].
  split; [exact Hnumbers |].
  split; [exact Hdash | exact Hresult].
Defined.

Lemma SectionKey_eqb_eq (a b : ResultDisplay.SectionKey) :
  ResultDisplay.SectionKey_eqb a b = true <-> a = b.
Proof.
  destruct a, b; simpl; split; intros H; try reflexivity; discriminate.
Qed.

Lemma has_delete (section key : ResultDisplay.SectionKey)
    (s : list ResultDisplay.SectionKey) :
  ResultDisplay.has (ResultDisplayExtra.delete section s) key =
    negb (ResultDisplay.SectionKey_eqb key section) && ResultDisplay.has s key.
Proof.
  unfold ResultDisplay.has, ResultDisplayExtra.delete.
  induction s as [| a s IH]; simpl; [now rewrite andb_false_r |].
  destruct (ResultDisplay.SectionKey_eqb a section) eqn:Ha; simpl; rewrite IH.
  - apply SectionKey_eqb_eq in Ha. subst a.
    destruct (ResultDisplay.SectionKey_eqb key section); reflexivity.
  - destruct (ResultDisplay.SectionKey_eqb key a) eqn:Hk; simpl.
    + apply SectionKey_eqb_eq in Hk. subst a.
      destruct key, section; simpl in *; try reflexivity; discriminate.
    + reflexivity.
Qed.

Lemma has_add (section key : ResultDisplay.SectionKey)
    (s : list ResultDisplay.SectionKey) :
  ResultDisplay.has (ResultDisplayExtra.add section s) key =
    ResultDisplay.SectionKey_eqb key section || ResultDisplay.has s key.
Proof.
  unfold ResultDisplayExtra.add.
  destruct (ResultDisplay.has s section) eqn:Hs.
  - destruct (ResultDisplay.SectionKey_eqb key section) eqn:Hk; [| reflexivity].
    apply SectionKey_eqb_eq in Hk. subst key. now rewrite Hs.
  - unfold ResultDisplay.has. rewrite existsb_app. simpl.
    rewrite orb_false_r. apply orb_comm.
Qed.

(** X18. [toggleSection] of [ResultDisplay] flips the membership of the
    toggled section in the set of expanded sections and of no other, so
    toggling twice shows the same sections as before; [toggleSection] of
    the dashboard, applied twice, gives back the same flags. *)
Theorem toggle_flips_one_section
    (section key : ResultDisplay.SectionKey) (prev : list ResultDisplay.SectionKey)
    (name : DashboardExtra.SectionName) (open : DashboardView.OpenSections) :
  ResultDisplay.has (ResultDisplayExtra.toggleSection section prev) key =
    xorb (ResultDisplay.SectionKey_eqb key section) (ResultDisplay.has prev key) /\
  ResultDisplay.has
    (ResultDisplayExtra.toggleSection section
       (ResultDisplayExtra.toggleSection section prev)) key =
    ResultDisplay.has prev key /\
  DashboardExtra.toggleSection name (DashboardExtra.toggleSection name open) = open.
Proof.
  assert (H1 : forall s k,
            ResultDisplay.has (ResultDisplayExtra.toggleSection section s) k =
            xorb (ResultDisplay.SectionKey_eqb k section) (ResultDisplay.has s k)).
  { intros s k. unfold ResultDisplayExtra.toggleSection.
    destruct (ResultDisplay.has s section) eqn:Hs.
    - rewrite has_delete.
      destruct (ResultDisplay.SectionKey_eqb k section) eqn:Hk; simpl;
        [| reflexivity].
      apply SectionKey_eqb_eq in Hk. subst k. now rewrite Hs.
    - rewrite has_add.
      destruct (ResultDisplay.SectionKey_eqb k section) eqn:Hk; simpl;
        [| reflexivity].
      apply SectionKey_eqb_eq in Hk. subst k. now rewrite Hs. }
  split; [apply H1 |]. split.
  - rewrite !H1. now destruct (ResultDisplay.SectionKey_eqb key section),
                              (ResultDisplay.has prev key).
  - destruct name, open as [a b c d]; simpl; now rewrite negb_involutive.
Qed.

Lemma has_char_app (c : ascii) (a b : string) :
  JSString.has_char c (a ++ b)%string =
    JSString.has_char c a || JSString.has_char c b.
Proof.
  induction a as [| x a IH]; simpl; [reflexivity |].
  now rewrite IH, orb_assoc.
Qed.

Lemma remove_last_extension_no_dot (s : string) :
  JSString.has_char "." s = false -> JSString.remove_last_extension s = s.
Proof.
  induction s as [| c s IH]; simpl; [reflexivity |].
  intros H. apply orb_false_iff in H as [Hc Hs].
  rewrite Hc. simpl. now rewrite IH.
Qed.

(** X19. The name of the report downloaded from the dashboard is the
    original file name without its last extension, followed by
    [_summary.txt]: dots in the stem are kept, and a name without a dot
    is kept whole. *)
Theorem report_name_drops_last_extension (stem ext : string) :
  ext <> ""%string -> JSString.has_char "." ext = false ->
  DashboardExtra.report_download_name (stem ++ "." ++ ext) =
    (stem ++ "_summary.txt")%string /\
  DashboardExtra.report_download_name ext = (ext ++ "_summary.txt")%string.
Proof.
  intros Hne Hnodot. unfold DashboardExtra.report_download_name. split.
  - f_equal. change (stem ++ "." ++ ext)%string with (stem ++ String "." ext)%string.
    induction stem as [| c stem IH].
    + simpl. apply String.eqb_neq in Hne. now rewrite Hne, Hnodot.
    + change (String c stem ++ String "." ext)%string
        with (String c (stem ++ String "." ext)%string).
      cbn [JSString.remove_last_extension].
      rewrite has_char_app. cbn [JSString.has_char].
      rewrite Ascii.eqb_refl. cbn [orb]. rewrite orb_true_r.
      cbn [negb]. rewrite andb_false_r. now rewrite IH.
  - f_equal. now apply remove_last_extension_no_dot.
Qed.

Lemma report_name_drops_last_extension_witness :
  DashboardExtra.report_download_name "rapat.senin.mp4" =
    "rapat.senin_summary.txt"%string.
Proof.
  exact (proj1 (report_name_drops_last_extension "rapat.senin" "mp4"
                  ltac:(discriminate) eq_refl)).
Defined.

Lemma split_no_dot (s : string) :
  JSString.has_char "." s = false -> JS.split "." s = [s].
Proof.
  induction s as [| c s IH]; simpl; [reflexivity |].
  intros H. apply orb_false_iff in H as [Hc Hs].
  rewrite Hc, IH by assumption. reflexivity.
Qed.

Lemma first_segment_stem (stem rest : string) :
  JSString.has_char "." stem = false ->
  JSString.first_segment (stem ++ "." ++ rest) = Some stem.
Proof.
  unfold JSString.first_segment.
  change (stem ++ "." ++ rest)%string with (stem ++ String "." rest)%string.
  induction stem as [| c stem IH]; intros H.
  - reflexivity.
  - simpl in H. apply orb_false_iff in H as [Hc Hs].
    change (String c stem ++ String "." rest)%string
      with (String c (stem ++ String "." rest)%string).
    cbn [JS.split]. rewrite Hc.
    specialize (IH Hs).
    destruct (JS.split "." (stem ++ String "." rest)) as [| h t]; simpl in *;
      congruence.
Qed.

(** X20. The name of the text file downloaded from [ResultDisplay]
    keeps only what precedes the first dot of the original file name:
    every later part of the name is dropped, not just the extension; a
    name without a dot is kept whole. *)
Theorem download_name_keeps_first_segment (stem rest : string) :
  JSString.has_char "." stem = false ->
  ResultDisplayExtra.download_name (stem ++ "." ++ rest) =
    ("meeting-notes-" ++ stem ++ ".txt")%string /\
  ResultDisplayExtra.download_name stem =
    ("meeting-notes-" ++ stem ++ ".txt")%string.
Proof.
  intros H. unfold ResultDisplayExtra.download_name. split.
  - now rewrite first_segment_stem.
  - unfold JSString.first_segment. now rewrite split_no_dot.
Qed.

Lemma download_name_keeps_first_segment_witness :
  ResultDisplayExtra.download_name "rapat.senin.mp4" =
    "meeting-notes-rapat.txt"%string.
Proof.
  exact (proj1 (download_name_keeps_first_segment "rapat" "senin.mp4" eq_refl)).
Defined.

End ViewExtraProofs.

(** * The admin console: lists, login and the stored key *)
Module AdminExtraProofs.
Import Admin AdminExtra Examples.
Local Open Scope list_scope.

(** X21. An approve or reject call is a [POST] of
    [/api/credits/admin/<action>/<id>?admin_key=<key>].  When it is
    answered ok, the purchase moves from the pending list to the head of
    the history: the new history entry is the purchase as it was shown,
    every field of it, except that its status is [approved] or
    [rejected] and its [verified_at] is the time of the action; the
    other pending purchases stay, the selection and the busy marker are
    cleared, and the key is untouched.  When the purchase is not in the
    list the button was rendered from, the history is left as it was. *)
Theorem action_moves_purchase
    (st : State) (purchaseId : string) (action : Action) (now : string)
    (code : Z) (p : Purchase) :
  JS.ok code = true ->
  find (fun q => String.eqb (id q) purchaseId) (purchases st) = Some p ->
  let st' := handleAction_settled purchaseId action (purchases st) now
               (Some code) st in
  requests (handleAction purchaseId action st) =
    requests st ++
      [{| method := "POST";
          path := ("/api/credits/admin/" ++
                   match action with
                   | approve => "approve"
                   | reject => "reject"
                   end ++ "/" ++ purchaseId ++ "?admin_key=" ++ adminKey st)%string;
          query := []; body := NoBody |}] /\
  (forall q, In q (purchases st') <-> In q (purchases st) /\ id q <> purchaseId) /\
  history st' =
    {| id := id p; user_id := user_id p; package_id := package_id p;
       credits := credits p; amount := amount p;
       status := match action with
                 | approve => "approved"%string
                 | reject => "rejected"%string
                 end;
       proof_url := proof_url p; proof_filename := proof_filename p;
       admin_notes := admin_notes p; created_at := created_at p;
       verified_at := Some now;
       user_email := user_email p; user_name := user_name p |} :: history st /\
  id p = purchaseId /\
  selectedPurchase st' = None /\ actionLoading st' = None /\
  localStorage_admin_key st' = localStorage_admin_key st /\
  (forall shown,
     find (fun q => String.eqb (id q) purchaseId) shown = None ->
     history (handleAction_settled purchaseId action shown now (Some code) st) =
       history st).
Proof.
  intros Hok Hfind. cbv zeta.
  split; [destruct action; reflexivity |].
  unfold handleAction_settled.
  rewrite Hok, Hfind. cbn [negb]. simpl.
  apply find_some in Hfind as [Hin Heq]. apply String.eqb_eq in Heq.
  split; [| repeat split].
  - intros q. rewrite filter_In. split.
    + intros [Hq Hne]. split; [exact Hq |].
      apply negb_true_iff, String.eqb_neq in Hne. exact Hne.
    + intros [Hq Hne]. split; [exact Hq |].
      apply negb_true_iff, String.eqb_neq. exact Hne.
  - exact Heq.
  - intros shown Hnone. now rewrite Hnone.
Qed.

Lemma action_moves_purchase_witness :
  let p := {| id := "p1"; user_id := "user-1"; package_id := "starter";
              credits := 5; amount := 25000; status := "pending";
              proof_url := "/proofs/p1.png"; proof_filename := "p1.png";
              admin_notes := None; created_at := "2026-01-01T00:00:00.000Z";
              verified_at := None; user_email := None; user_name := None |} in
  let st := fetchData_settled
              (lists_responses 200 (parsed (Some [p])) 200 (parsed (Some [])))
              signed_in in
  purchases (handleAction_settled "p1" approve (purchases st)
               "2026-01-02T00:00:00.000Z" (Some 200) st) = [] /\
  history (handleAction_settled "p1" approve (purchases st)
             "2026-01-02T00:00:00.000Z" (Some 200) st) =
    [{| id := "p1"; user_id := "user-1"; package_id := "starter";
        credits := 5; amount := 25000; status := "approved";
        proof_url := "/proofs/p1.png"; proof_filename := "p1.png";
        admin_notes := None; created_at := "2026-01-01T00:00:00.000Z";
        verified_at := Some "2026-01-02T00:00:00.000Z"%string;
        user_email := None; user_name := None |}].
Proof.
  cbv zeta.
  destruct (action_moves_purchase
              (fetchData_settled
                 (lists_responses 200
                    (parsed (Some [{| id := "p1"; user_id := "user-1";
                                      package_id := "starter"; credits := 5;
                                      amount := 25000; status := "pending";
                                      proof_url := "/proofs/p1.png";
                                      proof_filename := "p1.png";
                                      admin_notes := None;
                                      created_at := "2026-01-01T00:00:00.000Z";
                                      verified_at := None; user_email := None;
                                      user_name := None |}]))
                    200 (parsed (Some []))) signed_in)
              "p1" approve "2026-01-02T00:00:00.000Z" 200 _ eq_refl eq_refl)
    as (_ & _ & Hhist & _).
  split; [reflexivity |].
  exact Hhist.
Defined.

(** X22. What [fetchData] does with answers other than a 401 of the
    pending list: the key and the authenticated flag are never touched
    and loading ends; when both bodies parse, both lists are replaced (a
    body without [purchases], as an error body has, gives the empty
    list) and the error message is left as it was; when a body does not
    parse, or a request threw, the lists are kept and the load-failure
    message is set. *)
Theorem fetchData_other_answers
    (st : State) (pendingStatus historyStatus : Z) (pendingBody historyBody : Json) :
  pendingStatus <> 401 ->
  let st' := fetchData_settled
               (lists_responses pendingStatus pendingBody historyStatus historyBody)
               st in
  (localStorage_admin_key st' = localStorage_admin_key st /\
   authenticated st' = authenticated st /\ loading st' = false) /\
  (forall p h, pendingBody = parsed p -> historyBody = parsed h ->
     purchases st' = or_empty p /\ history st' = or_empty h /\
     error st' = error st) /\
  (pendingBody = invalid \/ historyBody = invalid ->
     purchases st' = purchases st /\ history st' = history st /\
     error st' = Some "Gagal memuat data"%string) /\
  (let st2 := fetchData_settled lists_threw st in
   purchases st2 = purchases st /\ history st2 = history st /\
   localStorage_admin_key st2 = localStorage_admin_key st /\
   authenticated st2 = authenticated st /\ loading st2 = false /\
   error st2 = Some "Gagal memuat data"%string).
Proof.
  intros Hne. cbv zeta. unfold fetchData_settled.
  apply Z.eqb_neq in Hne. rewrite Hne.
  split; [| split; [| split]].
  - destruct pendingBody, historyBody; repeat split.
  - intros p h -> ->. repeat split.
  - intros [-> | ->]; [| destruct pendingBody]; repeat split.
  - repeat split.
Qed.

Lemma fetchData_other_answers_witness :
  let st' := fetchData_settled (lists_responses 500 (parsed None) 500 (parsed None))
               signed_in in
  purchases st' = [] /\ error st' = None.
Proof.
  destruct (fetchData_other_answers signed_in 500 500 (parsed None) (parsed None)
              ltac:(discriminate)) as (_ & Hparsed & _).
  destruct (Hparsed None None eq_refl eq_refl) as (Hp & _ & He).
  split; [exact Hp | exact He].
Defined.

Lemma white_space_bytes_blank (a : ascii) (s : string) :
  ((Nat.leb 9 (nat_of_ascii a) && Nat.leb (nat_of_ascii a) 13)
   || Nat.eqb (nat_of_ascii a) 32) = true ->
  JSString.white_space_bytes (String a s) = 1%nat.
Proof.
  intros H. unfold JSString.white_space_bytes. cbv zeta. now rewrite H.
Qed.

Lemma trimStart_fuel_blank (s : string) (fuel : nat) :
  JSString.ascii_blank s = true -> (String.length s <= fuel)%nat ->
  JSString.trimStart_fuel fuel s = ""%string.
Proof.
  revert fuel. induction s as [| a s IH]; intros fuel Hb Hlen.
  - destruct fuel; reflexivity.
  - destruct fuel as [| fuel]; [simpl in Hlen; lia |].
    cbn [JSString.ascii_blank] in Hb. cbv zeta in Hb.
    apply andb_true_iff in Hb as [Ha Hs].
    cbn [JSString.trimStart_fuel].
    rewrite (white_space_bytes_blank a s Ha).
    apply IH; [exact Hs | simpl in Hlen; lia].
Qed.

Lemma trim_truthy_nonempty (k : string) :
  JSString.trim_truthy k = true -> JS.truthy (Some k) = true.
Proof.
  destruct k; [discriminate | reflexivity].
Qed.

(** X23. Logging in with a key that is not blank stores the key as
    typed, authenticates, clears the error, and the effect that follows
    fetches the pending list and the history, in that order, with a
    [GET] of [/api/credits/admin/pending?admin_key=] and of
    [/api/credits/admin/history?admin_key=], each followed by the key
    exactly as typed, with no URL-encoding.  A key that is empty or made
    of ASCII blanks only is not accepted: nothing is stored, the console
    stays unauthenticated and nothing is sent. *)
Theorem login_fetches_with_typed_key (st : State) (k : string) :
  authenticated st = false ->
  (JSString.trim_truthy k = true ->
   let st' := fetch_effect (handleLogin (setAdminKey k st)) in
   authenticated st' = true /\
   localStorage_admin_key st' = Some k /\
   error st' = None /\
   requests st' =
     requests st ++
       [{| method := "GET";
           path := ("/api/credits/admin/pending?admin_key=" ++ k)%string;
           query := []; body := NoBody |};
        {| method := "GET";
           path := ("/api/credits/admin/history?admin_key=" ++ k)%string;
           query := []; body := NoBody |}]) /\
  (JSString.ascii_blank k = true ->
   let st' := fetch_effect (handleLogin (setAdminKey k st)) in
   authenticated st' = false /\
   localStorage_admin_key st' = localStorage_admin_key st /\
   requests st' = requests st).
Proof.
  intros Hout. split.
  - intros Hk. cbv zeta. unfold handleLogin. simpl. rewrite Hk.
    unfold fetch_effect. cbn [authenticated adminKey andb].
    rewrite (trim_truthy_nonempty k Hk). repeat split.
  - intros Hb. cbv zeta.
    assert (Hk : JSString.trim_truthy k = false).
    { unfold JSString.trim_truthy, JSString.trimStart.
      now rewrite trimStart_fuel_blank. }
    unfold handleLogin. simpl. rewrite Hk.
    unfold fetch_effect. simpl. rewrite Hout. simpl. repeat split. exact Hout.
Qed.

Lemma login_fetches_with_typed_key_witness :
  requests (fetch_effect (handleLogin (setAdminKey "s3cret" (loaded None)))) =
    [{| method := "GET"; path := "/api/credits/admin/pending?admin_key=s3cret";
        query := []; body := NoBody |};
     {| method := "GET"; path := "/api/credits/admin/history?admin_key=s3cret";
        query := []; body := NoBody |}] /\
  localStorage_admin_key
    (fetch_effect (handleLogin (setAdminKey "   " (loaded None)))) = None.
Proof.
  destruct (login_fetches_with_typed_key (loaded None) "s3cret" eq_refl)
    as [Hgood _].
  destruct (login_fetches_with_typed_key (loaded None) "   " eq_refl)
    as [_ Hblank].
  split.
  - exact (proj2 (proj2 (proj2 (Hgood eq_refl)))).
  - exact (proj1 (proj2 (Hblank eq_refl))).
Defined.

(** X24. The stored key across page loads: after a login with a
    non-blank key a reload without a key in the URL is authenticated
    with that key; after a logout, or after a 401 of the pending list,
    a reload shows the login form; and a key in the URL wins over the
    stored one and replaces it. *)
Theorem key_across_reloads (st : State) (k url : string) (stored : option string)
    (pendingBody historyBody : Json) (historyStatus : Z) :
  JSString.trim_truthy k = true -> url <> ""%string ->
  (let st' := mount None
                (loaded (localStorage_admin_key (handleLogin (setAdminKey k st)))) in
   authenticated st' = true /\ adminKey st' = k) /\
  (let st' := mount None (loaded (localStorage_admin_key (handleLogout st))) in
   authenticated st' = false /\ loading st' = false) /\
  (let st' := mount None
                (loaded (localStorage_admin_key
                           (fetchData_settled
                              (lists_responses 401 pendingBody historyStatus
                                 historyBody) st))) in
   authenticated st' = false /\ loading st' = false) /\
  (let st' := mount (Some url) (loaded stored) in
   authenticated st' = true /\ adminKey st' = url /\
   localStorage_admin_key st' = Some url).
Proof.
  intros Hk Hurl. repeat split.
  - unfold handleLogin. simpl. rewrite Hk. unfold mount. simpl.
    pose proof (trim_truthy_nonempty k Hk) as Ht. simpl in Ht. now rewrite Ht.
  - unfold handleLogin. simpl. rewrite Hk. unfold mount. simpl.
    pose proof (trim_truthy_nonempty k Hk) as Ht. simpl in Ht. now rewrite Ht.
  - unfold mount. simpl. apply String.eqb_neq in Hurl. now rewrite Hurl.
  - unfold mount. simpl. apply String.eqb_neq in Hurl. now rewrite Hurl.
  - unfold mount. simpl. apply String.eqb_neq in Hurl. now rewrite Hurl.
Qed.

Lemma key_across_reloads_witness :
  adminKey (mount None
              (loaded (localStorage_admin_key
                         (handleLogin (setAdminKey "s3cret" (loaded None)))))) =
    "s3cret"%string.
Proof.
  exact (proj2 (proj1 (key_across_reloads (loaded None) "s3cret" "other" None
                         invalid invalid 200 eq_refl ltac:(discriminate)))).
Defined.

End AdminExtraProofs.

(** * The purchase page: choosing and submitting the proof *)
Module BuyCreditsExtraProofs.
Import BuyCredits BuyCreditsExtra Examples.
Local Open Scope list_scope.

(** X25. A chosen file of one of the three image types and of at most
    5MB becomes the proof file, replacing an earlier one, and clears the
    error message, which enables the submit button unless a submission
    is under way; when the file dialog gives no file, nothing changes. *)
Theorem valid_proof_accepted (st : State) (file : File.t) :
  JS.includes allowedTypes (File.type file) = true ->
  File.size file <= 5 * 1024 * 1024 ->
  let st' := handleFileChange (Some file) st in
  proofFile st' = Some file /\ error st' = None /\
  submit_disabled st' = submitting st /\
  requests st' = requests st /\
  handleFileChange None st = st.
Proof.
  intros Hty Hsize. cbv zeta. unfold handleFileChange. rewrite Hty.
  assert (Hz : (File.size file >? 5 * 1024 * 1024) = false).
  { rewrite Z.gtb_ltb. apply Z.ltb_ge. exact Hsize. }
  rewrite Hz. repeat split.
Qed.

Lemma valid_proof_accepted_witness :
  proofFile (handleFileChange (Some bukti_png) proof_selected) = Some bukti_png.
Proof.
  refine (proj1 (valid_proof_accepted proof_selected bukti_png eq_refl _)).
  simpl. lia.
Defined.

(** X26. Submitting without a package, without a proof file or without
    a signed-in user sends nothing: only the message asking for both is
    set, and the form does not go into the submitting state. *)
Theorem incomplete_form_not_submitted (st : State) :
  selectedPackage st = None \/ proofFile st = None \/ user st = None ->
  let st' := handleSubmit st in
  requests st' = requests st /\
  error st' = Some "Pilih paket dan upload bukti transfer"%string /\
  submitting st' = submitting st /\ success st' = success st /\
  proofFile st' = proofFile st.
Proof.
  intros H. cbv zeta.
  assert (Hst' : handleSubmit st =
                 setError (Some "Pilih paket dan upload bukti transfer"%string) st).
  { unfold handleSubmit.
    destruct H as [H | [H | H]]; rewrite H;
      repeat match goal with
             | |- context [match ?x with _ => _ end] => destruct x
             end; reflexivity. }
  rewrite Hst'. repeat split.
Qed.

Lemma incomplete_form_not_submitted_witness :
  requests (handleSubmit (setProofFile None proof_selected)) = [].
Proof.
  exact (proj1 (incomplete_form_not_submitted (setProofFile None proof_selected)
                  (or_intror (or_introl eq_refl)))).
Defined.



End BuyCreditsExtraProofs.
